(** * Tenant operator: the reconciliation pass of [TenantReconciler]

    A shallow embedding of the tenant operator (package [main] of
    operators/tenant-operator): the API types it declares
    ([TenantSpec], [TenantQuota], [TenantStatus]), the Kubernetes objects
    it builds, the [client.Client] interface it talks to, and the body of
    [TenantReconciler.Reconcile].  The reconciler is a straight-line
    program over the client: it is written here in a small state monad
    that threads the client, records every client call together with the
    error it returned, and keeps the log lines. *)

From Stdlib Require Import ZArith Ascii String DecimalString DecimalNat.
From stdpp Require Import base option list gmap strings fin_maps.

Local Open Scope string_scope.
Local Open Scope list_scope.
Local Open Scope Z_scope.

(** ** k8s.io/apimachinery/pkg/api/errors *)

Module errors.

(** The reasons of [metav1.StatusReason] an API call can fail with. *)
Inductive StatusReason :=
| StatusReasonUnknown
| StatusReasonUnauthorized
| StatusReasonForbidden
| StatusReasonNotFound
| StatusReasonAlreadyExists
| StatusReasonConflict
| StatusReasonInvalid
| StatusReasonServerTimeout
| StatusReasonTimeout
| StatusReasonTooManyRequests
| StatusReasonInternalError
| StatusReasonServiceUnavailable.

(** A non-nil Go [error]: either an API status, or any other error
    (a broken connection, a context deadline). *)
Inductive Err :=
| StatusError (reason : StatusReason) (message : string)
| OtherError (message : string).

(** ReasonForError: the reason of a status error, Unknown otherwise. *)
Definition ReasonForError (e : Err) : StatusReason :=
  match e with
  | StatusError r _ => r
  | OtherError _ => StatusReasonUnknown
  end.

End errors.

(** Go's [error] interface value: [None] is [nil]. *)
Abbreviation error := (option errors.Err).

Definition IsAlreadyExists (err : error) : bool :=
  match err with
  | Some e =>
      match errors.ReasonForError e with
      | errors.StatusReasonAlreadyExists => true
      | _ => false
      end
  | None => false
  end.

Definition nonNil (err : error) : bool :=
  match err with Some _ => true | None => false end.

(** ** k8s.io/apimachinery/pkg/api/resource

    [resource.Quantity] and its parser, after the scanner of the
    package: an optional sign, a run of digits, an optional point with a
    run of digits, and the rest as the suffix,
      suffix ::= binarySI | decimalSI | (e|E) [sign] digits
    Either run of digits may be empty (a number without digits is 0); the
    empty string is no quantity; an exponent has to fit 64 bits and is
    kept in 32.  A quantity is kept as
    [mantissa * 10^decExp * 2^binExp]. *)

Module resource.

Inductive Format := DecimalExponent | BinarySI | DecimalSI.

Record Quantity := mkQuantity {
  mantissa : Z;
  decExp : Z;
  binExp : Z;
  format : Format
}.

Definition digit (c : ascii) : option Z :=
  let n := Z.of_nat (nat_of_ascii c) in
  if (48 <=? n) && (n <=? 57) then Some (n - 48) else None.

(** Reads a run of decimal digits: the number read so far, how many
    digits were read, and the rest of the input. *)
Fixpoint digits (s : string) (acc : Z) (count : nat) : Z * nat * string :=
  match s with
  | String c rest =>
      match digit c with
      | Some d => digits rest (10 * acc + d) (S count)
      | None => (acc, count, s)
      end
  | EmptyString => (acc, count, s)
  end.

Definition sign (s : string) : Z * string :=
  match s with
  | String "+" rest => (1, rest)
  | String "-" rest => (-1, rest)
  | _ => (1, s)
  end.

(** The fixed suffixes: decimal exponent, binary exponent, format. *)
Definition suffixes : list (string * (Z * Z * Format)) :=
  [ ("Ki", (0, 10, BinarySI)); ("Mi", (0, 20, BinarySI));
    ("Gi", (0, 30, BinarySI)); ("Ti", (0, 40, BinarySI));
    ("Pi", (0, 50, BinarySI)); ("Ei", (0, 60, BinarySI));
    ("n", (-9, 0, DecimalSI)); ("u", (-6, 0, DecimalSI));
    ("m", (-3, 0, DecimalSI)); ("", (0, 0, DecimalSI));
    ("k", (3, 0, DecimalSI)); ("M", (6, 0, DecimalSI));
    ("G", (9, 0, DecimalSI)); ("T", (12, 0, DecimalSI));
    ("P", (15, 0, DecimalSI)); ("E", (18, 0, DecimalSI)) ].

Fixpoint lookupSuffix (tbl : list (string * (Z * Z * Format))) (s : string)
  : option (Z * Z * Format) :=
  match tbl with
  | [] => None
  | (k, v) :: tbl' => if String.eqb k s then Some v else lookupSuffix tbl' s
  end.

(** Go's conversion [int32(n)] of a 64-bit integer. *)
Definition int32 (n : Z) : Z := (n + 2 ^ 31) mod 2 ^ 32 - 2 ^ 31.

(** [e] or [E] followed by what [strconv.ParseInt(_, 10, 64)] reads: an
    optional sign and at least one digit, within 64 bits. *)
Definition exponent (s : string) : option (Z * Z * Format) :=
  match s with
  | String c rest =>
      if (Ascii.eqb c "e" || Ascii.eqb c "E")%bool then
        let '(sg, rest1) := sign rest in
        match digits rest1 0 0 with
        | (n, S _, EmptyString) =>
            if (- 2 ^ 63 <=? sg * n) && (sg * n <=? 2 ^ 63 - 1)
            then Some (int32 (sg * n), 0, DecimalExponent)
            else None
        | _ => None
        end
      else None
  | EmptyString => None
  end.

Definition suffix (s : string) : option (Z * Z * Format) :=
  match lookupSuffix suffixes s with
  | Some v => Some v
  | None => exponent s
  end.

Definition ParseQuantity (str : string) : option Quantity :=
  match str with
  | EmptyString => None
  | _ =>
      let '(sg, s1) := sign str in
      let '(whole, nw, s2) := digits s1 0 0 in
      let '(frac, nf, s3) :=
        match s2 with
        | String "." rest => digits rest 0 0
        | _ => (0, 0%nat, s2)
        end in
      match suffix s3 with
      | Some (de, be, f) =>
          Some (mkQuantity (sg * (whole * 10 ^ Z.of_nat nf + frac))
                           (de - Z.of_nat nf) be f)
      | None => None
      end
  end.

(** [Quantity.Value]: the quantity in base units, rounded up. *)
Definition Value (q : Quantity) : Z :=
  let num := mantissa q * 2 ^ binExp q * 10 ^ Z.max (decExp q) 0 in
  let den := 10 ^ Z.max (- decExp q) 0 in
  - ((- num) / den).

End resource.

(** ** The Kubernetes objects the reconciler builds

    Each record keeps the fields the operator sets; fields of the API types
    that the operator leaves at their zero value are not represented. *)

Module metav1.

Record ObjectMeta := mkObjectMeta {
  Name : string;
  Namespace : string;
  Labels : gmap string string
}.

Record LabelSelector := mkLabelSelector {
  MatchLabels : gmap string string
}.

End metav1.

Module corev1.

(** [corev1.ResourceName] constants. *)
Definition ResourceRequestsCPU : string := "requests.cpu".
Definition ResourceRequestsMemory : string := "requests.memory".
Definition ResourceLimitsCPU : string := "limits.cpu".
Definition ResourceLimitsMemory : string := "limits.memory".
Definition ResourcePods : string := "pods".

Record Namespace := mkNamespace {
  Namespace_ObjectMeta : metav1.ObjectMeta
}.

Record ResourceQuotaSpec := mkResourceQuotaSpec {
  Hard : gmap string resource.Quantity
}.

Record ResourceQuota := mkResourceQuota {
  ResourceQuota_ObjectMeta : metav1.ObjectMeta;
  ResourceQuota_Spec : ResourceQuotaSpec
}.

End corev1.

Module networkingv1.

Inductive PolicyType := PolicyTypeIngress | PolicyTypeEgress.

Record NetworkPolicySpec := mkNetworkPolicySpec {
  PodSelector : metav1.LabelSelector;
  PolicyTypes : list PolicyType
}.

Record NetworkPolicy := mkNetworkPolicy {
  NetworkPolicy_ObjectMeta : metav1.ObjectMeta;
  NetworkPolicy_Spec : NetworkPolicySpec
}.

End networkingv1.

Module rbacv1.

Record Subject := mkSubject {
  Subject_Kind : string;
  Subject_Name : string;
  Subject_APIGroup : string
}.

Record RoleRef := mkRoleRef {
  RoleRef_Kind : string;
  RoleRef_Name : string;
  RoleRef_APIGroup : string
}.

Record RoleBinding := mkRoleBinding {
  RoleBinding_ObjectMeta : metav1.ObjectMeta;
  Subjects : list Subject;
  RoleBinding_RoleRef : RoleRef
}.

End rbacv1.

(** ** The operator's own API types *)

Record TenantQuota := mkTenantQuota {
  CPU : string;
  Memory : string;
  Pods : Z;
  PVCs : Z;
  Services : Z
}.

(** TenantSpec defines the desired state of Tenant. *)
Record TenantSpec := mkTenantSpec {
  Owner : string;
  CostCenter : string;
  Quota : TenantQuota;
  AllowedIntegrations : list string;
  Contacts : gmap string string
}.

(** TenantStatus defines the observed state of Tenant. *)
Record TenantStatus := mkTenantStatus {
  Phase : string;
  NamespaceCreated : bool;
  QuotaApplied : bool;
  NetworkPolicyApplied : bool;
  RBACApplied : bool
}.

(** Modelled from the spec: the Tenant object itself (identity, desired
    state, status block).  The operator declares [TenantSpec] and
    [TenantStatus] but the type holding them ([platformv1alpha1.Tenant],
    only named in commented-out lines) is not part of the sources. *)
Record Tenant := mkTenant {
  Tenant_ObjectMeta : metav1.ObjectMeta;
  Spec : TenantSpec;
  Status : TenantStatus
}.

(** A [json:",omitempty"] quota block that sets no field decodes to
    Go's zero value. *)
Definition unsetQuota : TenantQuota := mkTenantQuota "" "" 0 0 0.

(** ** [client.Object] and the keys of the store *)

Inductive Kind :=
| KNamespace | KResourceQuota | KNetworkPolicy | KRoleBinding | KTenant.

Inductive Object :=
| ONamespace (ns : corev1.Namespace)
| OResourceQuota (quota : corev1.ResourceQuota)
| ONetworkPolicy (netpol : networkingv1.NetworkPolicy)
| ORoleBinding (roleBinding : rbacv1.RoleBinding)
| OTenant (tenant : Tenant).

Definition kindOf (o : Object) : Kind :=
  match o with
  | ONamespace _ => KNamespace
  | OResourceQuota _ => KResourceQuota
  | ONetworkPolicy _ => KNetworkPolicy
  | ORoleBinding _ => KRoleBinding
  | OTenant _ => KTenant
  end.

Definition metaOf (o : Object) : metav1.ObjectMeta :=
  match o with
  | ONamespace ns => corev1.Namespace_ObjectMeta ns
  | OResourceQuota q => corev1.ResourceQuota_ObjectMeta q
  | ONetworkPolicy np => networkingv1.NetworkPolicy_ObjectMeta np
  | ORoleBinding rb => rbacv1.RoleBinding_ObjectMeta rb
  | OTenant t => Tenant_ObjectMeta t
  end.

(** [types.NamespacedName], and [ctrl.Request] which embeds it. *)
Module types.
Record NamespacedName := mkNamespacedName {
  Namespace : string;
  Name : string
}.
End types.

Module ctrl.

Record Request := mkRequest {
  NamespacedName : types.NamespacedName
}.

Definition Name (req : Request) : string :=
  types.Name (NamespacedName req).

(** [ctrl.Result]; [RequeueAfter] in nanoseconds. *)
Record Result := mkResult {
  Requeue : bool;
  RequeueAfter : Z
}.

(** The zero value [ctrl.Result{}]. *)
Definition emptyResult : Result := mkResult false 0.

End ctrl.

(** ** [client.Client]

    The interface of the external store.  Every method takes the store's
    state and gives back the new state with the error of the call. *)

Module client.

Class Client (σ : Type) := {
  Get : Kind → types.NamespacedName → σ → σ * (option Object * error);
  Create : Object → σ → σ * error;
  Update : Object → σ → σ * error;
  Delete : Object → σ → σ * error;
  StatusUpdate : Object → σ → σ * error
}.

End client.

(** What a pass did against the store: one entry per client call, with
    the error the call returned. *)
Inductive Call :=
| CallGet (kind : Kind) (key : types.NamespacedName) (err : error)
| CallCreate (obj : Object) (err : error)
| CallUpdate (obj : Object) (err : error)
| CallDelete (obj : Object) (err : error)
| CallStatusUpdate (obj : Object) (err : error).

Inductive LogEntry :=
| LogInfo (msg : string) (keysAndValues : list (string * string))
| LogError (err : error) (msg : string).

(** ** The monad of a reconciliation pass *)

Record World (σ : Type) := mkWorld {
  store : σ;
  calls : list Call;
  logs : list LogEntry
}.
Arguments mkWorld {σ} _ _ _.
Arguments store {σ} _.
Arguments calls {σ} _.
Arguments logs {σ} _.

(** A Go function either returns or panics. *)
Inductive Outcome (A : Type) :=
| Returned (a : A)
| Panicked (msg : string).
Arguments Returned {A} _.
Arguments Panicked {A} _.

Definition M (σ A : Type) : Type := World σ → World σ * Outcome A.

Definition ret {σ A} (a : A) : M σ A := λ w, (w, Returned a).

Definition bind {σ A B} (m : M σ A) (k : A → M σ B) : M σ B :=
  λ w, match m w with
       | (w', Returned a) => k a w'
       | (w', Panicked msg) => (w', Panicked msg)
       end.

Definition panic {σ A} (msg : string) : M σ A := λ w, (w, Panicked msg).

#[global] Instance M_ret {σ} : MRet (M σ) := λ A, ret.
#[global] Instance M_bind {σ} : MBind (M σ) := λ A B k m, bind m k.

(** A fresh pass over the store [s]: nothing called, nothing logged. *)
Definition fresh {σ} (s : σ) : World σ := mkWorld s [] [].

(** ** The reconciler *)

Section Reconciler.

Context {σ : Type} `{!client.Client σ}.

(** [r.Create(ctx, obj)]: the embedded client's Create. *)
Definition Create (obj : Object) : M σ error := λ w,
  let '(s', err) := client.Create obj (store w) in
  (mkWorld s' (calls w ++ [CallCreate obj err]) (logs w), Returned err).

Definition logInfo (msg : string) (keysAndValues : list (string * string))
  : M σ unit := λ w,
  (mkWorld (store w) (calls w) (logs w ++ [LogInfo msg keysAndValues]),
   Returned ()).

Definition logError (err : error) (msg : string) : M σ unit := λ w,
  (mkWorld (store w) (calls w) (logs w ++ [LogError err msg]), Returned ()).

(** [resource.MustParse]: panics when the string is not a quantity. *)
Definition MustParse (str : string) : M σ resource.Quantity :=
  match resource.ParseQuantity str with
  | Some q => ret q
  | None => panic ("cannot parse '" +:+ str +:+ "'")
  end.

(** Reconcile handles the reconciliation loop for Tenant resources. *)
Definition Reconcile (req : ctrl.Request) : M σ (ctrl.Result * error) :=
  logInfo "Reconciling Tenant" [("name", ctrl.Name req)];;
  (* For now, we'll create resources based on the tenant name *)
  let tenantName := ctrl.Name req in
  (* Create namespace *)
  let ns := corev1.mkNamespace
    (metav1.mkObjectMeta tenantName ""
       {[ "platform.xyz.com/tenant" := tenantName;
          "istio-injection" := "enabled";
          "pod-security.kubernetes.io/enforce" := "restricted" ]}) in
  err ← Create (ONamespace ns);
  if nonNil err && negb (IsAlreadyExists err) then
    logError err "Failed to create namespace";;
    mret (ctrl.emptyResult, err)
  else
  logInfo "Namespace created/exists" [("namespace", tenantName)];;
  (* Create ResourceQuota *)
  requestsCPU ← MustParse "10";
  requestsMemory ← MustParse "20Gi";
  limitsCPU ← MustParse "20";
  limitsMemory ← MustParse "40Gi";
  pods ← MustParse "100";
  let quota := corev1.mkResourceQuota
    (metav1.mkObjectMeta "tenant-quota" tenantName ∅)
    (corev1.mkResourceQuotaSpec
       {[ corev1.ResourceRequestsCPU := requestsCPU;
          corev1.ResourceRequestsMemory := requestsMemory;
          corev1.ResourceLimitsCPU := limitsCPU;
          corev1.ResourceLimitsMemory := limitsMemory;
          corev1.ResourcePods := pods ]}) in
  err ← Create (OResourceQuota quota);
  if nonNil err && negb (IsAlreadyExists err) then
    logError err "Failed to create ResourceQuota";;
    mret (ctrl.emptyResult, err)
  else
  logInfo "ResourceQuota created/exists" [("namespace", tenantName)];;
  (* Create default deny NetworkPolicy *)
  let netpol := networkingv1.mkNetworkPolicy
    (metav1.mkObjectMeta "default-deny-ingress" tenantName ∅)
    (networkingv1.mkNetworkPolicySpec
       (metav1.mkLabelSelector ∅)
       [networkingv1.PolicyTypeIngress]) in
  err ← Create (ONetworkPolicy netpol);
  if nonNil err && negb (IsAlreadyExists err) then
    logError err "Failed to create NetworkPolicy";;
    mret (ctrl.emptyResult, err)
  else
  logInfo "NetworkPolicy created/exists" [("namespace", tenantName)];;
  (* Create RoleBinding for tenant team *)
  let roleBinding := rbacv1.mkRoleBinding
    (metav1.mkObjectMeta (tenantName +:+ "-developers") tenantName ∅)
    [rbacv1.mkSubject "Group" (tenantName +:+ "-team")
                      "rbac.authorization.k8s.io"]
    (rbacv1.mkRoleRef "ClusterRole" "edit" "rbac.authorization.k8s.io") in
  err ← Create (ORoleBinding roleBinding);
  if nonNil err && negb (IsAlreadyExists err) then
    logError err "Failed to create RoleBinding";;
    mret (ctrl.emptyResult, err)
  else
  logInfo "RoleBinding created/exists" [("namespace", tenantName)];;
  mret (ctrl.emptyResult, None).

End Reconciler.

(** ** An in-memory store

    The API server seen through [client.Client]: objects are kept under
    (kind, namespace, name); Tenants, which are cluster scoped, under their
    name.  [faults] lets the store refuse a key with a given error (a
    forbidden namespace, an unreachable server). *)

#[global] Instance Kind_eq_dec : EqDecision Kind.
Proof. solve_decision. Defined.

Definition Kind_to_nat (k : Kind) : nat :=
  match k with
  | KNamespace => 0 | KResourceQuota => 1 | KNetworkPolicy => 2
  | KRoleBinding => 3 | KTenant => 4
  end%nat.

Definition Kind_of_nat (n : nat) : option Kind :=
  match n with
  | 0 => Some KNamespace | 1 => Some KResourceQuota
  | 2 => Some KNetworkPolicy | 3 => Some KRoleBinding
  | 4 => Some KTenant | _ => None
  end%nat.

#[global] Instance Kind_countable : Countable Kind.
Proof.
  apply (inj_countable Kind_to_nat Kind_of_nat).
  intros []; reflexivity.
Defined.

Abbreviation ObjKey := (Kind * string * string)%type.

Definition keyOf (o : Object) : ObjKey :=
  (kindOf o, metav1.Namespace (metaOf o), metav1.Name (metaOf o)).

Record Cluster := mkCluster {
  tenants : gmap string Tenant;
  objects : gmap ObjKey Object;
  faults : gmap ObjKey errors.Err
}.

Definition alreadyExists (o : Object) : errors.Err :=
  errors.StatusError errors.StatusReasonAlreadyExists
    (metav1.Name (metaOf o) +:+ " already exists").

Definition notFound (name : string) : errors.Err :=
  errors.StatusError errors.StatusReasonNotFound (name +:+ " not found").

(** Modelled from the spec: the store's synchronous
    [create(kind, namespaced, fields)] answering Created, AlreadyExists or
    Error(cause).  A key the store refuses answers its error; a key
    already held answers AlreadyExists and keeps the held object as it
    is; any other create stores the object.  A refusal is part of the
    state of the store and no call changes it: an error that goes away is
    a store that changed between two passes. *)
Definition cluster_Create (o : Object) (c : Cluster) : Cluster * error :=
  match faults c !! keyOf o with
  | Some e => (c, Some e)
  | None =>
      match o with
      | OTenant t =>
          let name := metav1.Name (Tenant_ObjectMeta t) in
          match tenants c !! name with
          | Some _ => (c, Some (alreadyExists o))
          | None =>
              (mkCluster (<[name := t]> (tenants c)) (objects c) (faults c),
               None)
          end
      | _ =>
          match objects c !! keyOf o with
          | Some _ => (c, Some (alreadyExists o))
          | None =>
              (mkCluster (tenants c) (<[keyOf o := o]> (objects c))
                         (faults c),
               None)
          end
      end
  end.

Definition cluster_Get (k : Kind) (key : types.NamespacedName) (c : Cluster)
  : Cluster * (option Object * error) :=
  match k with
  | KTenant =>
      match tenants c !! types.Name key with
      | Some t => (c, (Some (OTenant t), None))
      | None => (c, (None, Some (notFound (types.Name key))))
      end
  | _ =>
      match objects c !! (k, types.Namespace key, types.Name key) with
      | Some o => (c, (Some o, None))
      | None => (c, (None, Some (notFound (types.Name key))))
      end
  end.

Definition cluster_Update (o : Object) (c : Cluster) : Cluster * error :=
  match o with
  | OTenant t =>
      let name := metav1.Name (Tenant_ObjectMeta t) in
      match tenants c !! name with
      | Some old =>
          (mkCluster
             (<[name := mkTenant (Tenant_ObjectMeta t) (Spec t) (Status old)]>
                (tenants c))
             (objects c) (faults c),
           None)
      | None => (c, Some (notFound name))
      end
  | _ =>
      match objects c !! keyOf o with
      | Some _ =>
          (mkCluster (tenants c) (<[keyOf o := o]> (objects c)) (faults c),
           None)
      | None => (c, Some (notFound (metav1.Name (metaOf o))))
      end
  end.

Definition cluster_Delete (o : Object) (c : Cluster) : Cluster * error :=
  match o with
  | OTenant t =>
      let name := metav1.Name (Tenant_ObjectMeta t) in
      match tenants c !! name with
      | Some _ =>
          (mkCluster (delete name (tenants c)) (objects c) (faults c), None)
      | None => (c, Some (notFound name))
      end
  | _ =>
      match objects c !! keyOf o with
      | Some _ =>
          (mkCluster (tenants c) (delete (keyOf o) (objects c)) (faults c),
           None)
      | None => (c, Some (notFound (metav1.Name (metaOf o))))
      end
  end.

(** Modelled from the spec: [writeStatus(key, statusBlock)], which
    replaces the status block of the stored Tenant and nothing else. *)
Definition cluster_StatusUpdate (o : Object) (c : Cluster) : Cluster * error :=
  match o with
  | OTenant t =>
      let name := metav1.Name (Tenant_ObjectMeta t) in
      match tenants c !! name with
      | Some old =>
          (mkCluster
             (<[name := mkTenant (Tenant_ObjectMeta old) (Spec old) (Status t)]>
                (tenants c))
             (objects c) (faults c),
           None)
      | None => (c, Some (notFound name))
      end
  | _ =>
      match objects c !! keyOf o with
      | Some _ => (c, None)
      | None => (c, Some (notFound (metav1.Name (metaOf o))))
      end
  end.

#[global] Instance Cluster_Client : client.Client Cluster := {
  client.Get := cluster_Get;
  client.Create := cluster_Create;
  client.Update := cluster_Update;
  client.Delete := cluster_Delete;
  client.StatusUpdate := cluster_StatusUpdate
}.

(** ** The child resources of a tenant name

    The four objects a pass for the name [tenantName] sends to the store,
    in the order it sends them; the quantities are the parsed literals. *)

Definition quantity10 : resource.Quantity :=
  resource.mkQuantity 10 0 0 resource.DecimalSI.
Definition quantity20Gi : resource.Quantity :=
  resource.mkQuantity 20 0 30 resource.BinarySI.
Definition quantity20 : resource.Quantity :=
  resource.mkQuantity 20 0 0 resource.DecimalSI.
Definition quantity40Gi : resource.Quantity :=
  resource.mkQuantity 40 0 30 resource.BinarySI.
Definition quantity100 : resource.Quantity :=
  resource.mkQuantity 100 0 0 resource.DecimalSI.

Definition platformDefaults : gmap string resource.Quantity :=
  {[ "requests.cpu" := quantity10;
     "requests.memory" := quantity20Gi;
     "limits.cpu" := quantity20;
     "limits.memory" := quantity40Gi;
     "pods" := quantity100 ]}.

Definition tenantNamespace (tenantName : string) : corev1.Namespace :=
  corev1.mkNamespace
    (metav1.mkObjectMeta tenantName ""
       {[ "platform.xyz.com/tenant" := tenantName;
          "istio-injection" := "enabled";
          "pod-security.kubernetes.io/enforce" := "restricted" ]}).

Definition tenantQuota (tenantName : string) : corev1.ResourceQuota :=
  corev1.mkResourceQuota
    (metav1.mkObjectMeta "tenant-quota" tenantName ∅)
    (corev1.mkResourceQuotaSpec platformDefaults).

Definition defaultDenyIngress (tenantName : string)
  : networkingv1.NetworkPolicy :=
  networkingv1.mkNetworkPolicy
    (metav1.mkObjectMeta "default-deny-ingress" tenantName ∅)
    (networkingv1.mkNetworkPolicySpec
       (metav1.mkLabelSelector ∅) [networkingv1.PolicyTypeIngress]).

Definition developersBinding (tenantName : string) : rbacv1.RoleBinding :=
  rbacv1.mkRoleBinding
    (metav1.mkObjectMeta (tenantName +:+ "-developers") tenantName ∅)
    [rbacv1.mkSubject "Group" (tenantName +:+ "-team")
                      "rbac.authorization.k8s.io"]
    (rbacv1.mkRoleRef "ClusterRole" "edit" "rbac.authorization.k8s.io").

Definition children (tenantName : string) : list Object :=
  [ ONamespace (tenantNamespace tenantName);
    OResourceQuota (tenantQuota tenantName);
    ONetworkPolicy (defaultDenyIngress tenantName);
    ORoleBinding (developersBinding tenantName) ].

(** A create failed for good: the error is there and is not
    AlreadyExists. *)
Definition hardFailure (err : error) : bool :=
  nonNil err && negb (IsAlreadyExists err).

(** Create the objects of a list in order, stopping at the first hard
    failure: the store afterwards, the calls made, the error returned. *)
Fixpoint createAll {σ} `{!client.Client σ} (os : list Object) (s : σ)
  : σ * list Call * error :=
  match os with
  | [] => (s, [], None)
  | o :: os' =>
      let '(s', err) := client.Create o s in
      if hardFailure err then (s', [CallCreate o err], err)
      else
        let '(s'', cs, e) := createAll os' s' in
        (s'', CallCreate o err :: cs, e)
  end.

Definition callObject (c : Call) : option Object :=
  match c with
  | CallGet _ _ _ => None
  | CallCreate o _ | CallUpdate o _ | CallDelete o _
  | CallStatusUpdate o _ => Some o
  end.

Definition callError (c : Call) : error :=
  match c with
  | CallGet _ _ e | CallCreate _ e | CallUpdate _ e | CallDelete _ e
  | CallStatusUpdate _ e => e
  end.

Definition isCreate (c : Call) : bool :=
  match c with CallCreate _ _ => true | _ => false end.

Definition isStatusUpdate (c : Call) : bool :=
  match c with CallStatusUpdate _ _ => true | _ => false end.

(** The kinds of the objects a list of calls was issued for. *)
Definition callKinds (cs : list Call) : list Kind :=
  omap (λ c, kindOf <$> callObject c) cs.

(** A call that did not fail for good: no error, or AlreadyExists. *)
Definition callOk (c : Call) : Prop := hardFailure (callError c) = false.

(** The kinds of the children, in the order the pass creates them. *)
Definition childKinds : list Kind :=
  [KNamespace; KResourceQuota; KNetworkPolicy; KRoleBinding].

Section Replay.

Context {σ : Type} `{!client.Client σ}.

(** The store a pass leaves is the store it found with the recorded
    calls applied, one after the other: nothing else touched it. *)
Definition replay (cs : list Call) (s : σ) : σ :=
  foldl (λ s c,
           match c with
           | CallGet k key _ => (client.Get k key s).1
           | CallCreate o _ => (client.Create o s).1
           | CallUpdate o _ => (client.Update o s).1
           | CallDelete o _ => (client.Delete o s).1
           | CallStatusUpdate o _ => (client.StatusUpdate o s).1
           end) s cs.

End Replay.

(** ** Example tenants and stores *)

Definition noStatus : TenantStatus := mkTenantStatus "" false false false false.

Definition tenantWithQuota (name : string) (q : TenantQuota) : Tenant :=
  mkTenant (metav1.mkObjectMeta name "" ∅)
           (mkTenantSpec (name +:+ "-team") "" q [] ∅)
           noStatus.

(** The Tenant [candidate] that asks for 200 pods and nothing else. *)
Definition candidate : Tenant :=
  tenantWithQuota "candidate" (mkTenantQuota "" "" 200 0 0).

(** A Tenant with no quota block at all. *)
Definition plainTenant : Tenant := tenantWithQuota "candidate" unsetQuota.

(** A Tenant whose cpu quota is not a quantity. *)
Definition malformedTenant : Tenant :=
  tenantWithQuota "candidate" (mkTenantQuota "not-a-number" "" 0 0 0).

Definition requestNamed (name : string) : ctrl.Request :=
  ctrl.mkRequest (types.mkNamespacedName "" name).

(** A store that holds the Tenant [t] and no child resource yet. *)
Definition clusterOf (t : Tenant) : Cluster :=
  mkCluster {[ metav1.Name (Tenant_ObjectMeta t) := t ]} ∅ ∅.

Definition forbidden : errors.Err :=
  errors.StatusError errors.StatusReasonForbidden "namespaces is forbidden".

Definition unavailable : errors.Err :=
  errors.OtherError "connection refused".

(** A store that refuses to create the namespace [candidate]. *)
Definition forbiddenCluster : Cluster :=
  mkCluster {[ "candidate" := candidate ]} ∅
            {[ (KNamespace, "", "candidate") := forbidden ]}.

(** A store that cannot be reached for the NetworkPolicy of [candidate]. *)
Definition flakyCluster : Cluster :=
  mkCluster {[ "candidate" := candidate ]} ∅
            {[ (KNetworkPolicy, "candidate", "default-deny-ingress")
               := unavailable ]}.

(** ** Predicates on the in-memory store *)

(** The pass never sends a Tenant to the store. *)
Definition isChild (o : Object) : Prop := kindOf o ≠ KTenant.

(** Creating [o] again changes nothing and answers AlreadyExists. *)
Definition settled (o : Object) (c : Cluster) : Prop :=
  ∃ e, cluster_Create o c = (c, Some e) ∧ IsAlreadyExists (Some e) = true.

(** Two stores that hold the same child resources and refuse the same
    keys; the Tenants they hold may differ in any way. *)
Definition sameChildren (c1 c2 : Cluster) : Prop :=
  objects c1 = objects c2 ∧ faults c1 = faults c2.

(** The platform defaults in base units: cores, bytes, pods. *)
Definition platformDefaultValues : gmap string Z :=
  {[ "requests.cpu" := 10;
     "requests.memory" := 20 * 2 ^ 30;
     "limits.cpu" := 20;
     "limits.memory" := 40 * 2 ^ 30;
     "pods" := 100 ]}.

(** ** The log of a pass, and stores compared on a set of keys *)

(** The line the reconciler logs after a create, by the kind created and
    the error it got back. *)
Definition logOfCall (tenantName : string) (c : Call) : option LogEntry :=
  match c with
  | CallCreate o err =>
      Some
        (let '(failed, done) :=
           match kindOf o with
           | KNamespace =>
               ("Failed to create namespace", "Namespace created/exists")
           | KResourceQuota =>
               ("Failed to create ResourceQuota",
                "ResourceQuota created/exists")
           | KNetworkPolicy =>
               ("Failed to create NetworkPolicy",
                "NetworkPolicy created/exists")
           | KRoleBinding =>
               ("Failed to create RoleBinding", "RoleBinding created/exists")
           | KTenant => ("", "")
           end in
         if hardFailure err then LogError err failed
         else LogInfo done [("namespace", tenantName)])
  | _ => None
  end.

Definition passLog (tenantName : string) (cs : list Call) : list LogEntry :=
  LogInfo "Reconciling Tenant" [("name", tenantName)]
  :: omap (logOfCall tenantName) cs.

Definition isLogError (l : LogEntry) : bool :=
  match l with LogError _ _ => true | LogInfo _ _ => false end.

(** Two stores that refuse the same keys and hold the same object, or
    none, under every key of [K]. *)
Definition agreeOn (K : list ObjKey) (c1 c2 : Cluster) : Prop :=
  faults c1 = faults c2 ∧ ∀ k, k ∈ K → objects c1 !! k = objects c2 !! k.

(** One pass for the name [name] over the store [c]. *)
Definition pass (name : string) (c : Cluster)
  : World Cluster * Outcome (ctrl.Result * error) :=
  Reconcile (requestNamed name) (fresh c).

(** Every object of a pass is scoped to the tenant: the Namespace is the
    one named after it, any other object lives in that namespace. *)
Definition scopedTo (tenantName : string) (o : Object) : Prop :=
  match o with
  | ONamespace ns =>
      metav1.Name (corev1.Namespace_ObjectMeta ns) = tenantName
      ∧ metav1.Namespace (corev1.Namespace_ObjectMeta ns) = ""
  | _ => metav1.Namespace (metaOf o) = tenantName
  end.

(** What a RoleBinding of the pass grants: the ClusterRole [edit], to the
    group of the tenant's team and to nobody else. *)
Definition grantsEditToTeam (tenantName : string) (o : Object) : Prop :=
  match o with
  | ORoleBinding rb =>
      rbacv1.Subjects rb
      = [rbacv1.mkSubject "Group" (tenantName +:+ "-team")
                          "rbac.authorization.k8s.io"]
      ∧ rbacv1.RoleBinding_RoleRef rb
        = rbacv1.mkRoleRef "ClusterRole" "edit" "rbac.authorization.k8s.io"
  | _ => True
  end.

(** * The example services

    The two HTTP services of the repository (candidate-api and hirer-api).
    A handler is a function of the request and of the service's list; it
    fills a response writer.  A JSON body is kept as the value that was
    encoded, a plain body as its text. *)

(** ** net/http, as far as the handlers use it *)

Module http.

Definition MethodGet : string := "GET".
Definition MethodPost : string := "POST".

Definition StatusOK : Z := 200.
Definition StatusCreated : Z := 201.
Definition StatusBadRequest : Z := 400.
Definition StatusNotFound : Z := 404.
Definition StatusMethodNotAllowed : Z := 405.
Definition StatusInternalServerError : Z := 500.
Definition StatusServiceUnavailable : Z := 503.

(** [r.Method], [r.URL.Path], [r.Body]. *)
Record Request := mkRequest {
  Method : string;
  Path : string;
  Body : string
}.

Inductive Chunk (J : Type) :=
| Encoded (v : J)
| Text (s : string).
Arguments Encoded {J} _.
Arguments Text {J} _.

(** A response writer: the header map, the status line once it is
    written (with the headers as they were then), the body so far. *)
Record ResponseWriter (J : Type) := mkWriter {
  Header : gmap string string;
  wrote : option (Z * gmap string string);
  body : list (Chunk J)
}.
Arguments mkWriter {J} _ _ _.
Arguments Header {J} _.
Arguments wrote {J} _.
Arguments body {J} _.

Definition newWriter {J} : ResponseWriter J := mkWriter ∅ None [].

(** [w.Header().Set(key, value)] *)
Definition SetHeader {J} (key value : string) (w : ResponseWriter J)
  : ResponseWriter J :=
  mkWriter (<[key := value]> (Header w)) (wrote w) (body w).

(** [w.Header().Del(key)] *)
Definition DelHeader {J} (key : string) (w : ResponseWriter J)
  : ResponseWriter J :=
  mkWriter (delete key (Header w)) (wrote w) (body w).

(** [w.WriteHeader(code)]: only the first call counts. *)
Definition WriteHeader {J} (code : Z) (w : ResponseWriter J)
  : ResponseWriter J :=
  match wrote w with
  | Some _ => w
  | None => mkWriter (Header w) (Some (code, Header w)) (body w)
  end.

(** [w.Write(...)]: writes the status line with 200 when none was. *)
Definition Write {J} (ch : Chunk J) (w : ResponseWriter J)
  : ResponseWriter J :=
  let w' := WriteHeader StatusOK w in
  mkWriter (Header w') (wrote w') (body w' ++ [ch]).

(** [json.NewEncoder(w).Encode(v)] *)
Definition Encode {J} (v : J) (w : ResponseWriter J) : ResponseWriter J :=
  Write (Encoded v) w.

(** [http.Error(w, error, code)] *)
Definition Error {J} (err : string) (code : Z) (w : ResponseWriter J)
  : ResponseWriter J :=
  let w := DelHeader "Content-Length" w in
  let w := SetHeader "Content-Type" "text/plain; charset=utf-8" w in
  let w := SetHeader "X-Content-Type-Options" "nosniff" w in
  let w := WriteHeader code w in
  Write (Text (err +:+ String "010" "")) w.

(** [http.NotFound(w, r)] *)
Definition NotFound {J} (w : ResponseWriter J) : ResponseWriter J :=
  Error "404 page not found" StatusNotFound w.

(** The status code and the headers the client gets. *)
Definition sentStatus {J} (w : ResponseWriter J) : Z :=
  match wrote w with Some (code, _) => code | None => StatusOK end.

Definition sentHeader {J} (w : ResponseWriter J) : gmap string string :=
  match wrote w with Some (_, h) => h | None => Header w end.

End http.

(** [fmt.Sprintf("%d", n)] for a length. *)
Definition Sprintf_d (n : nat) : string :=
  DecimalString.NilEmpty.string_of_uint (Nat.to_uint n).

(** [s[n:]]: the string without its first [n] bytes. *)
Fixpoint dropString (n : nat) (s : string) : string :=
  match n, s with
  | O, _ => s
  | S n', String _ rest => dropString n' rest
  | S _, EmptyString => EmptyString
  end.

(** ** candidate-api *)

Module candidateapi.

(** Candidate represents a job candidate; [CreatedAt] as a clock
    reading. *)
Record Candidate := mkCandidate {
  ID : string;
  Name : string;
  Email : string;
  Skills : list string;
  CreatedAt : Z
}.

(** What [Response.Data] holds in this service. *)
Inductive Payload :=
| NoData
| DataCandidates (cs : list Candidate)
| DataCandidate (c : Candidate).

(** Response is a generic API response. *)
Record Response := mkResponse {
  Status : string;
  Data : Payload;
  Message : string
}.

Abbreviation Writer := (http.ResponseWriter Response).

(** The package variable [candidates], with the clock reading [start]
    of the program's start. *)
Definition candidates (start : Z) : list Candidate :=
  [ mkCandidate "1" "Alice Johnson" "alice@example.com"
                ["Go"; "Kubernetes"; "AWS"] start;
    mkCandidate "2" "Bob Smith" "bob@example.com"
                ["Python"; "ML"; "TensorFlow"] start;
    mkCandidate "3" "Carol Williams" "carol@example.com"
                ["Java"; "Spring"; "PostgreSQL"] start ].

Definition homeHandler (w : Writer) (r : http.Request) : Writer :=
  if negb (String.eqb (http.Path r) "/") then http.NotFound w
  else
    http.Encode
      (mkResponse "ok" NoData "Candidate API v1.0.0 - XYZ Platform") w.

Definition healthHandler (w : Writer) (r : http.Request) : Writer :=
  let w := http.SetHeader "Content-Type" "application/json" w in
  http.Encode (mkResponse "healthy" NoData "") w.

Definition readyHandler (w : Writer) (r : http.Request) : Writer :=
  let w := http.SetHeader "Content-Type" "application/json" w in
  http.Encode (mkResponse "ready" NoData "") w.

Section Handlers.

(** [json.NewDecoder(r.Body).Decode(&newCandidate)] on a zero
    Candidate: the error text, or the Candidate read. *)
Variable Decode : string → string + Candidate.

(** The handler of the collection; [now] is what [time.Now()] reads. *)
Definition candidatesHandler (now : Z) (w : Writer) (r : http.Request)
    (cs : list Candidate) : list Candidate * Writer :=
  let w := http.SetHeader "Content-Type" "application/json" w in
  if String.eqb (http.Method r) http.MethodGet then
    (cs, http.Encode (mkResponse "ok" (DataCandidates cs) "") w)
  else if String.eqb (http.Method r) http.MethodPost then
    match Decode (http.Body r) with
    | inl err => (cs, http.Error err http.StatusBadRequest w)
    | inr newCandidate =>
        let newCandidate :=
          mkCandidate (Sprintf_d (length cs + 1)) (Name newCandidate)
                      (Email newCandidate) (Skills newCandidate) now in
        let cs := cs ++ [newCandidate] in
        let w := http.WriteHeader http.StatusCreated w in
        (cs, http.Encode
               (mkResponse "created" (DataCandidate newCandidate) "") w)
    end
  else
    (cs, http.Error "Method not allowed" http.StatusMethodNotAllowed w).

(** The loop of [candidateByIDHandler]: the response of the first
    candidate with the id, if there is one. *)
Fixpoint rangeCandidates (id : string) (w : Writer) (cs : list Candidate)
  : option Writer :=
  match cs with
  | [] => None
  | c :: cs' =>
      if String.eqb (ID c) id then
        Some (http.Encode (mkResponse "ok" (DataCandidate c) "") w)
      else rangeCandidates id w cs'
  end.

Definition byIDPrefix : string := "/api/v1/candidates/".

(** Slicing the path panics when the path is shorter than the prefix. *)
Definition candidateByIDHandler (w : Writer) (r : http.Request)
    (cs : list Candidate) : Outcome Writer :=
  let w := http.SetHeader "Content-Type" "application/json" w in
  if (String.length (http.Path r) <? String.length byIDPrefix)%nat then
    Panicked "slice bounds out of range"
  else
    let id := dropString (String.length byIDPrefix) (http.Path r) in
    match rangeCandidates id w cs with
    | Some w' => Returned w'
    | None =>
        let w := http.WriteHeader http.StatusNotFound w in
        Returned
          (http.Encode (mkResponse "error" NoData "Candidate not found") w)
    end.

End Handlers.

End candidateapi.

(** The ids of the list are the numbers one to its length, in order. *)
Definition wellNumbered (cs : list candidateapi.Candidate) : Prop :=
  candidateapi.ID <$> cs = Sprintf_d <$> seq 1 (length cs).

(** ** hirer-api: the cross-domain call *)

Module hirerapi.

(** Response is a generic API response; the match handler only fills
    [Status] and [Message]. *)
Record Response := mkResponse {
  Status : string;
  Message : string
}.

Abbreviation Writer := (http.ResponseWriter Response).

(** What [client.Get] and [io.ReadAll] give: an error of the call, or a
    response with its status code whose body reads or fails to read. *)
Inductive GetResult :=
| GetError (err : string)
| GetResponse (statusCode : Z) (read : string + string).

Definition defaultCandidateAPIURL : string :=
  "http://candidate-api.candidate.svc.cluster.local/api/v1/candidates".

(** matchCandidatesHandler demonstrates cross-domain integration.
    [getenv] is the value of CANDIDATE_API_URL, [get] the world behind
    the HTTP client; the result holds the URL that was called. *)
Definition matchCandidatesHandler (getenv : string) (get : string → GetResult)
    (w : Writer) (r : http.Request) : string * Writer :=
  let w := http.SetHeader "Content-Type" "application/json" w in
  let candidateAPIURL :=
    if String.eqb getenv "" then defaultCandidateAPIURL else getenv in
  match get candidateAPIURL with
  | GetError err =>
      let w := http.WriteHeader http.StatusServiceUnavailable w in
      (candidateAPIURL,
       http.Encode (mkResponse "error" "Unable to reach Candidate API") w)
  | GetResponse _ (inl err) =>
      let w := http.WriteHeader http.StatusInternalServerError w in
      (candidateAPIURL,
       http.Encode (mkResponse "error" "Error reading response") w)
  | GetResponse _ (inr body) =>
      (candidateAPIURL, http.Write (http.Text body) w)
  end.

End hirerapi.

(** ** Sample inputs for the services *)

(** A decoder that fails on an empty body and otherwise reads the body as
    the candidate's name. *)
Definition sampleDecode (body : string) : string + candidateapi.Candidate :=
  if String.eqb body "" then inl "EOF"
  else inr (candidateapi.mkCandidate "" body "" [] 0).

(** An upstream that answers 500 with a body. *)
Definition failingUpstream (url : string) : hirerapi.GetResult :=
  hirerapi.GetResponse 500 (inr "upstream broke").

(** * Properties *)

(** ** Running the monad, one step at a time *)

(** Reads the fields of a world that is written out. *)
Ltac norm_world := cbn [store calls logs fresh].

Section Steps.

Context {σ : Type} `{!client.Client σ}.
Context {A : Type}.
Implicit Types (w : World σ) (k : error → M σ A).

Lemma run_logInfo msg kvs (k : M σ A) w :
  (logInfo msg kvs ≫= λ _, k) w
  = k (mkWorld (store w) (calls w) (logs w ++ [LogInfo msg kvs])).
Proof. reflexivity. Qed.

Lemma run_logError err msg (k : M σ A) w :
  (logError err msg ≫= λ _, k) w
  = k (mkWorld (store w) (calls w) (logs w ++ [LogError err msg])).
Proof. reflexivity. Qed.

Lemma run_Create o k w s' err :
  client.Create o (store w) = (s', err) →
  (Create o ≫= k) w
  = k err (mkWorld s' (calls w ++ [CallCreate o err]) (logs w)).
Proof.
  intros E. unfold mbind, M_bind, bind, Create. rewrite E. reflexivity.
Qed.

Lemma run_MustParse str q (k : resource.Quantity → M σ A) w :
  resource.ParseQuantity str = Some q →
  (MustParse str ≫= k) w = k q w.
Proof.
  intros E. unfold mbind, M_bind, bind, MustParse. rewrite E. reflexivity.
Qed.

End Steps.

(** The five quantity literals of the reconciler all parse. *)
Lemma parse_literals :
  resource.ParseQuantity "10" = Some quantity10
  ∧ resource.ParseQuantity "20Gi" = Some quantity20Gi
  ∧ resource.ParseQuantity "20" = Some quantity20
  ∧ resource.ParseQuantity "40Gi" = Some quantity40Gi
  ∧ resource.ParseQuantity "100" = Some quantity100.
Proof. repeat split; vm_compute; reflexivity. Qed.

(** A few quantities, parsed and valued. *)
Example ParseQuantity_examples :
  resource.ParseQuantity "500m"
    = Some (resource.mkQuantity 500 (-3) 0 resource.DecimalSI)
  ∧ resource.ParseQuantity "1.5Gi"
    = Some (resource.mkQuantity 15 (-1) 30 resource.BinarySI)
  ∧ resource.ParseQuantity "2e3"
    = Some (resource.mkQuantity 2 3 0 resource.DecimalExponent)
  ∧ resource.ParseQuantity "not-a-number" = None
  ∧ resource.ParseQuantity "" = None
  ∧ resource.ParseQuantity "12x" = None.
Proof. repeat split; vm_compute; reflexivity. Qed.

Example Value_examples :
  resource.Value quantity20Gi = 21474836480
  ∧ resource.Value (resource.mkQuantity 500 (-3) 0 resource.DecimalSI) = 1
  ∧ resource.Value (resource.mkQuantity 15 (-1) 30 resource.BinarySI)
    = 1610612736.
Proof. repeat split; vm_compute; reflexivity. Qed.

(** ** The pass is [createAll] over the children of the request's name *)

Section Pass.

Context {σ : Type} `{!client.Client σ}.

Lemma Reconcile_createAll (req : ctrl.Request) (s : σ) :
  let r := Reconcile req (fresh s) in
  (store r.1, calls r.1, r.2)
  = let '(s', cs, e) := createAll (children (ctrl.Name req)) s in
    (s', cs, Returned (ctrl.emptyResult, e)).
Proof.
  destruct parse_literals as (P1 & P2 & P3 & P4 & P5).
  unfold Reconcile, children, createAll.
  rewrite run_logInfo. norm_world.
  fold (tenantNamespace (ctrl.Name req)).
  destruct (client.Create (ONamespace (tenantNamespace (ctrl.Name req))) s)
    as [s1 e1] eqn:E1.
  erewrite run_Create by exact E1. norm_world.
  fold (hardFailure e1). destruct (hardFailure e1) eqn:H1.
  { rewrite run_logError. reflexivity. }
  rewrite run_logInfo. norm_world.
  rewrite (run_MustParse _ _ _ _ P1), (run_MustParse _ _ _ _ P2),
    (run_MustParse _ _ _ _ P3), (run_MustParse _ _ _ _ P4),
    (run_MustParse _ _ _ _ P5).
  fold platformDefaults. fold (tenantQuota (ctrl.Name req)).
  destruct (client.Create (OResourceQuota (tenantQuota (ctrl.Name req))) s1)
    as [s2 e2] eqn:E2.
  erewrite run_Create by exact E2. norm_world.
  fold (hardFailure e2). destruct (hardFailure e2) eqn:H2.
  { rewrite run_logError. reflexivity. }
  rewrite run_logInfo. norm_world.
  fold (defaultDenyIngress (ctrl.Name req)).
  destruct (client.Create
              (ONetworkPolicy (defaultDenyIngress (ctrl.Name req))) s2)
    as [s3 e3] eqn:E3.
  erewrite run_Create by exact E3. norm_world.
  fold (hardFailure e3). destruct (hardFailure e3) eqn:H3.
  { rewrite run_logError. reflexivity. }
  rewrite run_logInfo. norm_world.
  fold (developersBinding (ctrl.Name req)).
  destruct (client.Create
              (ORoleBinding (developersBinding (ctrl.Name req))) s3)
    as [s4 e4] eqn:E4.
  erewrite run_Create by exact E4. norm_world.
  fold (hardFailure e4). destruct (hardFailure e4) eqn:H4.
  { rewrite run_logError. reflexivity. }
  rewrite run_logInfo. reflexivity.
Qed.

End Pass.

(** ** What [createAll] does, for any list of objects and any client *)

Lemma hardFailure_Some (e : errors.Err) :
  hardFailure (Some e) = negb (IsAlreadyExists (Some e)).
Proof. reflexivity. Qed.

Lemma hardFailure_None : hardFailure None = false.
Proof. reflexivity. Qed.

Section CreateAll.

Context {σ : Type} `{!client.Client σ}.

Lemma createAll_nil (s : σ) : createAll [] s = (s, [], None).
Proof. reflexivity. Qed.

Lemma createAll_cons (o : Object) (os : list Object) (s : σ) :
  createAll (o :: os) s
  = let '(s', err) := client.Create o s in
    if hardFailure err then (s', [CallCreate o err], err)
    else let '(s'', cs, e) := createAll os s' in
         (s'', CallCreate o err :: cs, e).
Proof. reflexivity. Qed.

(** The calls are creates of the objects, in order, each with the error
    it got back: no other verb, no other object. *)
Lemma createAll_calls (os : list Object) (s : σ) :
  ∃ errs : list error,
    (createAll os s).1.2 = zip_with CallCreate os errs
    ∧ (length errs ≤ length os)%nat.
Proof.
  revert s. induction os as [|o os IH]; intros s.
  - exists []. split; [reflexivity | simpl; lia].
  - rewrite createAll_cons.
    destruct (client.Create o s) as [s' err].
    destruct (hardFailure err).
    + exists [err]. split; [| simpl; lia].
      simpl. rewrite zip_with_nil_r. reflexivity.
    + destruct (IH s') as (errs & Hcs & Hlen).
      destruct (createAll os s') as [[s'' cs] e]. simpl in Hcs. subst cs.
      exists (err :: errs). split; [reflexivity | simpl; lia].
Qed.

(** Either every object was created (or was there already) and the
    result is nil, or the last call failed for good, it is the only one
    that did, and its error is the result. *)
Lemma createAll_result (os : list Object) (s : σ) :
  let '(_, cs, e) := createAll os s in
  (e = None ∧ length cs = length os ∧ Forall callOk cs)
  ∨ (∃ pre c, cs = pre ++ [c] ∧ Forall callOk pre
              ∧ callError c = e ∧ hardFailure e = true).
Proof.
  revert s. induction os as [|o os IH]; intros s.
  - left. split; [reflexivity|]. split; [reflexivity | constructor].
  - rewrite createAll_cons.
    destruct (client.Create o s) as [s' err].
    destruct (hardFailure err) eqn:Hf.
    + right. exists [], (CallCreate o err).
      split; [reflexivity|]. split; [constructor|].
      split; [reflexivity | exact Hf].
    + specialize (IH s').
      destruct (createAll os s') as [[s'' cs] e].
      destruct IH as [(-> & Hlen & Hok) | (pre & c & -> & Hpre & He & Hh)].
      * left. split; [reflexivity|]. split; [simpl; lia|].
        constructor; [exact Hf | exact Hok].
      * right. exists (CallCreate o err :: pre), c.
        split; [reflexivity|]. split; [|split; assumption].
        constructor; [exact Hf | exact Hpre].
Qed.

End CreateAll.

Section CreateAllTrace.

Context {σ : Type} `{!client.Client σ}.

Lemma createAll_kinds (os : list Object) (s : σ) :
  callKinds (createAll os s).1.2 `prefix_of` (kindOf <$> os).
Proof.
  revert s. induction os as [|o os IH]; intros s.
  - apply prefix_nil.
  - rewrite createAll_cons.
    destruct (client.Create o s) as [s' err].
    destruct (hardFailure err).
    + apply (prefix_cons (kindOf o) []), prefix_nil.
    + specialize (IH s').
      destruct (createAll os s') as [[s'' cs] e].
      apply (prefix_cons (kindOf o)), IH.
Qed.

Lemma createAll_isCreate (os : list Object) (s : σ) :
  Forall (λ c, isCreate c = true) (createAll os s).1.2.
Proof.
  destruct (createAll_calls os s) as (errs & -> & _).
  clear s. revert errs.
  induction os as [|o os IH]; intros [|e errs]; constructor; auto.
Qed.

(** Every object a call names is one of the list. *)
Lemma createAll_objects (os : list Object) (s : σ) (c : Call) (o : Object) :
  c ∈ (createAll os s).1.2 → callObject c = Some o → o ∈ os.
Proof.
  destruct (createAll_calls os s) as (errs & -> & _).
  intros Hin Ho. apply elem_of_zip_with in Hin.
  destruct Hin as (o' & e & -> & Hin & _).
  injection Ho as <-. exact Hin.
Qed.

Lemma createAll_replay (os : list Object) (s : σ) :
  (createAll os s).1.1 = replay (createAll os s).1.2 s.
Proof.
  revert s. induction os as [|o os IH]; intros s.
  - reflexivity.
  - rewrite createAll_cons.
    destruct (client.Create o s) as [s' err] eqn:E.
    destruct (hardFailure err).
    + simpl. rewrite E. reflexivity.
    + specialize (IH s').
      destruct (createAll os s') as [[s'' cs] e].
      simpl in *. rewrite E. exact IH.
Qed.

(** The three components of a pass, read off [createAll]. *)
Lemma Reconcile_run (req : ctrl.Request) (s : σ) :
  let r := Reconcile req (fresh s) in
  let a := createAll (children (ctrl.Name req)) s in
  store r.1 = a.1.1 ∧ calls r.1 = a.1.2
  ∧ r.2 = Returned (ctrl.emptyResult, a.2).
Proof.
  intros r a. pose proof (Reconcile_createAll req s) as E.
  fold r a in E. destruct a as [[s' cs] e]. simpl in E |- *.
  injection E as -> -> ->. auto.
Qed.

End CreateAllTrace.

Lemma children_kinds (tenantName : string) :
  kindOf <$> children tenantName = childKinds.
Proof. reflexivity. Qed.

Lemma childKinds_NoDup : NoDup childKinds.
Proof. apply NoDup_ListNoDup. repeat constructor; simpl; intuition congruence. Qed.

(** ** The pass against any client *)

Section AnyClient.

Context {σ : Type} `{!client.Client σ}.

(** C1. If the Namespace create returns an error that is not
    AlreadyExists, the pass stops there: it returns that error with the
    empty result, the Namespace create is the only call it made, and so no
    create for a ResourceQuota, NetworkPolicy or RoleBinding was issued. *)
Theorem namespace_failure_aborts
    (req : ctrl.Request) (s s' : σ) (e : errors.Err) :
  client.Create (ONamespace (tenantNamespace (ctrl.Name req))) s
    = (s', Some e) →
  IsAlreadyExists (Some e) = false →
  let r := Reconcile req (fresh s) in
  r.2 = Returned (ctrl.emptyResult, Some e)
  ∧ calls r.1
    = [CallCreate (ONamespace (tenantNamespace (ctrl.Name req))) (Some e)]
  ∧ store r.1 = s'
  ∧ ∀ c o, c ∈ calls r.1 → callObject c = Some o →
           kindOf o ≠ KResourceQuota ∧ kindOf o ≠ KNetworkPolicy
           ∧ kindOf o ≠ KRoleBinding.
Proof.
  intros HC HAE r.
  destruct (Reconcile_run req s) as (Hs & Hc & Hr). fold r in Hs, Hc, Hr.
  assert (Ha : createAll (children (ctrl.Name req)) s
               = (s', [CallCreate (ONamespace (tenantNamespace (ctrl.Name req)))
                                  (Some e)], Some e)).
  { unfold children. rewrite createAll_cons, HC.
    unfold hardFailure. rewrite HAE. reflexivity. }
  rewrite Ha in Hs, Hc, Hr. simpl in Hs, Hc, Hr.
  split; [exact Hr|]. split; [exact Hc|]. split; [exact Hs|].
  intros c o Hin Ho. rewrite Hc in Hin.
  apply list_elem_of_singleton in Hin. subst c.
  injection Ho as <-. simpl. repeat split; discriminate.
Qed.

(** C7. The first call of every pass creates a Namespace whose name is
    the tenant name and whose labels are the tenant identity, the mesh
    injection label and the pod-security label; no other Namespace is
    created in the pass. *)
Theorem namespace_name_and_labels (req : ctrl.Request) (s : σ) :
  let r := Reconcile req (fresh s) in
  ∃ ns err,
    calls r.1 !! 0%nat = Some (CallCreate (ONamespace ns) err)
    ∧ metav1.Name (corev1.Namespace_ObjectMeta ns) = ctrl.Name req
    ∧ metav1.Labels (corev1.Namespace_ObjectMeta ns)
        !! "platform.xyz.com/tenant" = Some (ctrl.Name req)
    ∧ metav1.Labels (corev1.Namespace_ObjectMeta ns)
        !! "istio-injection" = Some "enabled"
    ∧ metav1.Labels (corev1.Namespace_ObjectMeta ns)
        !! "pod-security.kubernetes.io/enforce" = Some "restricted"
    ∧ ∀ ns' err', CallCreate (ONamespace ns') err' ∈ calls r.1 → ns' = ns.
Proof.
  intros r.
  destruct (Reconcile_run req s) as (_ & Hc & _). fold r in Hc.
  exists (tenantNamespace (ctrl.Name req)).
  assert (H0 : ∃ err, (createAll (children (ctrl.Name req)) s).1.2 !! 0%nat
                 = Some (CallCreate
                           (ONamespace (tenantNamespace (ctrl.Name req))) err)).
  { unfold children. rewrite createAll_cons.
    destruct (client.Create _ s) as [s' err]. exists err.
    destruct (hardFailure err); [reflexivity|].
    destruct (createAll _ s') as [[? ?] ?]. reflexivity. }
  destruct H0 as (err & H0). exists err. rewrite Hc.
  split; [exact H0|]. split; [reflexivity|].
  split; [reflexivity|]. split; [reflexivity|]. split; [reflexivity|].
  intros ns' err' Hin.
  apply (createAll_objects _ _ _ (ONamespace ns')) in Hin; [|reflexivity].
  unfold children in Hin.
  repeat (apply elem_of_cons in Hin as [Hin|Hin]; [congruence|]).
  apply elem_of_nil in Hin. contradiction.
Qed.

(** C8. A pass only ever calls Create: at most four calls, at most one
    per kind, in the order Namespace, ResourceQuota, NetworkPolicy,
    RoleBinding; no read, update, delete or status write is issued, and
    the store it leaves is the one the recorded creates produce. *)
Theorem pass_only_creates (req : ctrl.Request) (s : σ) :
  let r := Reconcile req (fresh s) in
  Forall (λ c, isCreate c = true) (calls r.1)
  ∧ (length (calls r.1) ≤ 4)%nat
  ∧ length (callKinds (calls r.1)) = length (calls r.1)
  ∧ NoDup (callKinds (calls r.1))
  ∧ callKinds (calls r.1) `prefix_of` childKinds
  ∧ store r.1 = replay (calls r.1) s.
Proof.
  intros r.
  destruct (Reconcile_run req s) as (Hs & Hc & _). fold r in Hs, Hc.
  rewrite Hs, Hc. clear Hs Hc r.
  pose proof (createAll_kinds (children (ctrl.Name req)) s) as Hk.
  rewrite children_kinds in Hk.
  split; [apply createAll_isCreate|].
  destruct (createAll_calls (children (ctrl.Name req)) s) as (errs & Hz & Hl).
  split.
  { rewrite Hz, length_zip_with.
    change (length (children (ctrl.Name req))) with 4%nat. lia. }
  split.
  { rewrite Hz. generalize (children (ctrl.Name req)). clear.
    intros os. revert errs.
    induction os as [|o os IH]; intros [|e errs]; simpl; auto. }
  split.
  { destruct Hk as [k Hk]. pose proof childKinds_NoDup as Hn.
    rewrite Hk in Hn. apply NoDup_app in Hn. apply Hn. }
  split; [exact Hk|]. apply createAll_replay.
Qed.

(** C10. Reconcile always returns, with the empty result.  Its error is
    non-nil exactly when some create of the pass failed with an error
    other than AlreadyExists; that error is then the one of the last call
    of the pass, every call before it went through, and the calls follow
    the order Namespace, ResourceQuota, NetworkPolicy, RoleBinding, so no
    later kind was attempted. *)
Theorem error_is_first_hard_failure (req : ctrl.Request) (s : σ) :
  let r := Reconcile req (fresh s) in
  ∃ err : error,
    r.2 = Returned (ctrl.emptyResult, err)
    ∧ (err ≠ None ↔ Exists (λ c, hardFailure (callError c) = true) (calls r.1))
    ∧ (∀ e, err = Some e →
         ∃ pre o, calls r.1 = pre ++ [CallCreate o (Some e)]
                  ∧ Forall callOk pre
                  ∧ IsAlreadyExists (Some e) = false)
    ∧ (err = None → Forall callOk (calls r.1) ∧ length (calls r.1) = 4%nat)
    ∧ Forall (λ c, isCreate c = true) (calls r.1)
    ∧ callKinds (calls r.1) `prefix_of` childKinds.
Proof.
  intros r.
  destruct (Reconcile_run req s) as (_ & Hc & Hr). fold r in Hc, Hr.
  pose proof (createAll_kinds (children (ctrl.Name req)) s) as Hk.
  pose proof (createAll_isCreate (children (ctrl.Name req)) s) as Hi.
  pose proof (createAll_result (children (ctrl.Name req)) s) as Hres.
  rewrite children_kinds in Hk. rewrite <- Hc in Hk, Hi.
  destruct (createAll (children (ctrl.Name req)) s) as [[s' cs] e].
  simpl in Hc, Hr. subst cs. exists e.
  split; [exact Hr|].
  destruct Hres as [(-> & Hlen & Hok) | (pre & c & Hcs & Hpre & He & Hh)].
  - split.
    { split; [congruence|]. intros Hex. exfalso.
      apply Exists_exists in Hex as (c & Hin & Hc).
      rewrite Forall_forall in Hok. specialize (Hok c Hin).
      unfold callOk in Hok. congruence. }
    split; [discriminate|]. split; [|split; assumption].
    intros _. split; [exact Hok | exact Hlen].
  - split.
    { split.
      - intros _. rewrite Hcs. apply Exists_app. right.
        constructor. rewrite He. exact Hh.
      - intros _ ->. discriminate. }
    split.
    { intros e' ->. exists pre.
      assert (Hin : c ∈ calls r.1) by (rewrite Hcs; set_solver).
      rewrite Forall_forall in Hi. specialize (Hi c Hin).
      destruct c as [| o err | | |]; try discriminate.
      simpl in He. subst err. exists o.
      split; [exact Hcs|]. split; [exact Hpre|].
      unfold hardFailure in Hh. apply andb_true_iff in Hh as [_ Hh].
      apply negb_true_iff in Hh. exact Hh. }
    split; [|split; assumption].
    intros ->. discriminate.
Qed.

End AnyClient.

(** A pass over a store that holds nothing yet creates the four
    children; a pass that cannot reach the store for the NetworkPolicy
    stops after three calls with that error. *)
Example pass_over_new_tenant :
  let r := Reconcile (requestNamed "candidate") (fresh (clusterOf candidate)) in
  calls r.1 = (λ o, CallCreate o None) <$> children "candidate"
  ∧ r.2 = Returned (ctrl.emptyResult, None)
  ∧ size (objects (store r.1)) = 4%nat.
Proof. vm_compute. repeat split; reflexivity. Qed.

Example pass_over_flaky_store :
  let r := Reconcile (requestNamed "candidate") (fresh flakyCluster) in
  calls r.1
  = [ CallCreate (ONamespace (tenantNamespace "candidate")) None;
      CallCreate (OResourceQuota (tenantQuota "candidate")) None;
      CallCreate (ONetworkPolicy (defaultDenyIngress "candidate"))
                 (Some unavailable) ]
  ∧ r.2 = Returned (ctrl.emptyResult, Some unavailable)
  ∧ size (objects (store r.1)) = 2%nat.
Proof. vm_compute. repeat split; reflexivity. Qed.

(** A store that refuses the namespace makes the pass stop at once. *)
Lemma namespace_failure_aborts_witness :
  let r := Reconcile (requestNamed "candidate") (fresh forbiddenCluster) in
  r.2 = Returned (ctrl.emptyResult, Some forbidden)
  ∧ calls r.1 = [CallCreate (ONamespace (tenantNamespace "candidate"))
                            (Some forbidden)]
  ∧ store r.1 = forbiddenCluster
  ∧ ∀ c o, c ∈ calls r.1 → callObject c = Some o →
           kindOf o ≠ KResourceQuota ∧ kindOf o ≠ KNetworkPolicy
           ∧ kindOf o ≠ KRoleBinding.
Proof.
  apply (namespace_failure_aborts (requestNamed "candidate")
           forbiddenCluster forbiddenCluster forbidden).
  - vm_compute. reflexivity.
  - reflexivity.
Defined.

(** ** Creates against the in-memory store *)

Lemma children_isChild (tenantName : string) :
  Forall isChild (children tenantName).
Proof. repeat constructor; discriminate. Qed.

(** For a child resource, [cluster_Create] reads the key's fault, then
    the key's object, and stores the object when both are missing. *)
Lemma cluster_Create_child (o : Object) (c : Cluster) :
  isChild o →
  cluster_Create o c
  = match faults c !! keyOf o with
    | Some e => (c, Some e)
    | None =>
        match objects c !! keyOf o with
        | Some _ => (c, Some (alreadyExists o))
        | None =>
            (mkCluster (tenants c) (<[keyOf o := o]> (objects c)) (faults c),
             None)
        end
    end.
Proof.
  intros Ho. unfold cluster_Create.
  destruct o; try reflexivity. exfalso. apply Ho. reflexivity.
Qed.

(** Creating a child resource leaves Tenants and faults as they are. *)
Lemma cluster_Create_frame (o : Object) (c c' : Cluster) (err : error) :
  isChild o → cluster_Create o c = (c', err) →
  tenants c' = tenants c ∧ faults c' = faults c.
Proof.
  intros Ho. rewrite (cluster_Create_child o c Ho).
  destruct (faults c !! keyOf o); [intros [= <- _]; auto|].
  destruct (objects c !! keyOf o); intros [= <- _]; auto.
Qed.

Lemma createAll_frame (os : list Object) (c : Cluster) :
  Forall isChild os →
  tenants (createAll os c).1.1 = tenants c
  ∧ faults (createAll os c).1.1 = faults c.
Proof.
  intros Hos. revert c. induction Hos as [|o os Ho Hos IH]; intros c.
  - auto.
  - rewrite createAll_cons.
    change (client.Create o c) with (cluster_Create o c).
    destruct (cluster_Create o c) as [c1 err] eqn:E.
    destruct (cluster_Create_frame o c c1 err Ho E) as [Ht Hf].
    destruct (hardFailure err); [simpl; auto|].
    specialize (IH c1). destruct (createAll os c1) as [[c2 cs] e].
    simpl in *. destruct IH as [-> ->]. auto.
Qed.

(** [settled], read off the two maps. *)
Lemma settled_iff (o : Object) (c : Cluster) :
  isChild o →
  settled o c
  ↔ (∃ e, faults c !! keyOf o = Some e ∧ IsAlreadyExists (Some e) = true)
    ∨ (faults c !! keyOf o = None ∧ is_Some (objects c !! keyOf o)).
Proof.
  intros Ho. unfold settled. rewrite (cluster_Create_child o c Ho).
  split.
  - intros (e & Hc & He).
    destruct (faults c !! keyOf o) as [e'|].
    + left. exists e'. injection Hc as <-. auto.
    + right. split; [reflexivity|].
      destruct (objects c !! keyOf o); [eauto | discriminate].
  - intros [(e & -> & He) | (-> & [o' ->])].
    + exists e. auto.
    + exists (alreadyExists o). auto.
Qed.

(** A create that went through leaves its object settled. *)
Lemma create_settles (o : Object) (c c' : Cluster) (err : error) :
  isChild o → cluster_Create o c = (c', err) → hardFailure err = false →
  settled o c'.
Proof.
  intros Ho Hc Hf. apply (settled_iff o c' Ho).
  rewrite (cluster_Create_child o c Ho) in Hc.
  destruct (faults c !! keyOf o) as [e|] eqn:Ef.
  - injection Hc as <- <-. left. exists e. split; [exact Ef|].
    rewrite hardFailure_Some in Hf. apply negb_false_iff in Hf. exact Hf.
  - right. destruct (objects c !! keyOf o) as [o'|] eqn:Eo.
    + injection Hc as <- _. split; [exact Ef | eauto].
    + injection Hc as <- _. simpl. split; [exact Ef|].
      rewrite lookup_insert_eq. eauto.
Qed.

(** Later creates never unsettle an object. *)
Lemma settled_create (o o' : Object) (c c' : Cluster) (err : error) :
  isChild o → isChild o' → settled o c → cluster_Create o' c = (c', err) →
  settled o c'.
Proof.
  intros Ho Ho' Hs Hc.
  destruct (cluster_Create_frame o' c c' err Ho' Hc) as [_ Hf].
  apply (settled_iff o c' Ho). apply (settled_iff o c Ho) in Hs.
  rewrite Hf. destruct Hs as [Hs | [Hn Hs]]; [left; exact Hs|].
  right. split; [exact Hn|].
  rewrite (cluster_Create_child o' c Ho') in Hc.
  destruct (faults c !! keyOf o'); [injection Hc as <- _; exact Hs|].
  destruct (objects c !! keyOf o'); injection Hc as <- _; [exact Hs|].
  simpl. apply lookup_insert_is_Some'. right. exact Hs.
Qed.

Lemma settled_createAll (o : Object) (os : list Object) (c : Cluster) :
  isChild o → Forall isChild os → settled o c →
  settled o (createAll os c).1.1.
Proof.
  intros Ho Hos. revert c. induction Hos as [|o' os Ho' Hos IH]; intros c Hs.
  - exact Hs.
  - rewrite createAll_cons.
    change (client.Create o' c) with (cluster_Create o' c).
    destruct (cluster_Create o' c) as [c1 err] eqn:E.
    pose proof (settled_create o o' c c1 err Ho Ho' Hs E) as Hs1.
    destruct (hardFailure err); [exact Hs1|].
    specialize (IH c1 Hs1). destruct (createAll os c1) as [[c2 cs] e].
    exact IH.
Qed.

(** After a run of creates that returned nil, every object is settled. *)
Lemma createAll_settles (os : list Object) (c : Cluster) :
  Forall isChild os → (createAll os c).2 = None →
  Forall (λ o, settled o (createAll os c).1.1) os.
Proof.
  intros Hos. revert c. induction Hos as [|o os Ho Hos IH]; intros c He.
  - constructor.
  - rewrite createAll_cons in He |- *.
    change (client.Create o c) with (cluster_Create o c) in He |- *.
    destruct (cluster_Create o c) as [c1 err] eqn:E.
    destruct (hardFailure err) eqn:Hf.
    { simpl in He. subst err. discriminate. }
    pose proof (create_settles o c c1 err Ho E Hf) as Hs.
    pose proof (settled_createAll o os c1 Ho Hos Hs) as Hs'.
    specialize (IH c1).
    destruct (createAll os c1) as [[c2 cs] e]. simpl in *.
    constructor; [exact Hs' | exact (IH He)].
Qed.

(** Over settled objects a run of creates changes nothing: every call
    answers AlreadyExists and the result is nil. *)
Lemma createAll_settled (os : list Object) (c : Cluster) :
  Forall (λ o, settled o c) os →
  (createAll os c).1.1 = c
  ∧ (createAll os c).2 = None
  ∧ callObject <$> (createAll os c).1.2 = Some <$> os
  ∧ Forall (λ k, IsAlreadyExists (callError k) = true) (createAll os c).1.2.
Proof.
  induction 1 as [|o os (e & Hc & He) Hos IH].
  - repeat split. constructor.
  - rewrite createAll_cons.
    change (client.Create o c) with (cluster_Create o c). rewrite Hc.
    unfold hardFailure. rewrite He. simpl.
    destruct (createAll os c) as [[c' cs] e']. simpl in *.
    destruct IH as (-> & -> & Ho & Hae).
    split; [reflexivity|]. split; [reflexivity|].
    split; [exact (f_equal (cons (Some o)) Ho)|].
    constructor; [exact He | exact Hae].
Qed.

(** The answers of the store to a child create, and the child resources
    it holds afterwards, do not depend on the Tenants it holds. *)
Lemma cluster_Create_sameChildren (o : Object) (c1 c2 : Cluster) :
  isChild o → sameChildren c1 c2 →
  (cluster_Create o c1).2 = (cluster_Create o c2).2
  ∧ sameChildren (cluster_Create o c1).1 (cluster_Create o c2).1.
Proof.
  intros Ho [Hobj Hf].
  rewrite (cluster_Create_child o c1 Ho), (cluster_Create_child o c2 Ho).
  rewrite Hobj, Hf.
  destruct (faults c2 !! keyOf o); [split; [reflexivity | split; assumption]|].
  destruct (objects c2 !! keyOf o); [split; [reflexivity | split; assumption]|].
  split; [reflexivity|]. split; reflexivity.
Qed.

Lemma createAll_sameChildren (os : list Object) (c1 c2 : Cluster) :
  Forall isChild os → sameChildren c1 c2 →
  (createAll os c1).1.2 = (createAll os c2).1.2
  ∧ (createAll os c1).2 = (createAll os c2).2
  ∧ sameChildren (createAll os c1).1.1 (createAll os c2).1.1.
Proof.
  intros Hos. revert c1 c2.
  induction Hos as [|o os Ho Hos IH]; intros c1 c2 Hsame.
  - auto.
  - rewrite !createAll_cons.
    change (client.Create o c1) with (cluster_Create o c1).
    change (client.Create o c2) with (cluster_Create o c2).
    destruct (cluster_Create_sameChildren o c1 c2 Ho Hsame) as [He Hs].
    destruct (cluster_Create o c1) as [c1' e1].
    destruct (cluster_Create o c2) as [c2' e2].
    simpl in He, Hs. subst e2.
    destruct (hardFailure e1); [auto|].
    specialize (IH c1' c2' Hs).
    destruct (createAll os c1') as [[d1 cs1] r1].
    destruct (createAll os c2') as [[d2 cs2] r2].
    simpl in *. destruct IH as (-> & -> & Hd). auto.
Qed.

(** ** The ResourceQuota of a pass, against any client *)

Lemma platformDefaults_values :
  resource.Value <$> platformDefaults = platformDefaultValues.
Proof. vm_compute. reflexivity. Qed.

Section QuotaOfPass.

Context {σ : Type} `{!client.Client σ}.

(** Whatever ResourceQuota a pass creates is [tenantQuota] of the name. *)
Lemma quota_create_is_tenantQuota (req : ctrl.Request) (s : σ)
    (q : corev1.ResourceQuota) (err : error) :
  CallCreate (OResourceQuota q) err ∈ calls (Reconcile req (fresh s)).1 →
  q = tenantQuota (ctrl.Name req).
Proof.
  destruct (Reconcile_run req s) as (_ & -> & _). intros Hin.
  apply (createAll_objects _ _ _ (OResourceQuota q)) in Hin; [|reflexivity].
  unfold children in Hin.
  repeat (apply elem_of_cons in Hin as [Hin|Hin]; [congruence|]).
  apply elem_of_nil in Hin. contradiction.
Qed.

(** When the client lets the Namespace create through, the pass goes on
    to create the ResourceQuota of the name, on the store that create
    left, and records the client's answer. *)
Lemma quota_created_after_namespace (req : ctrl.Request) (s s1 : σ)
    (e1 : error) :
  client.Create (ONamespace (tenantNamespace (ctrl.Name req))) s = (s1, e1) →
  hardFailure e1 = false →
  calls (Reconcile req (fresh s)).1 !! 0%nat
  = Some (CallCreate (ONamespace (tenantNamespace (ctrl.Name req))) e1)
  ∧ calls (Reconcile req (fresh s)).1 !! 1%nat
    = Some (CallCreate
              (OResourceQuota (tenantQuota (ctrl.Name req)))
              (client.Create (OResourceQuota (tenantQuota (ctrl.Name req)))
                             s1).2).
Proof.
  intros E1 H1. destruct (Reconcile_run req s) as (_ & -> & _).
  unfold children. rewrite createAll_cons, E1, H1, createAll_cons.
  destruct (client.Create (OResourceQuota _) s1) as [s2 e2].
  destruct (hardFailure e2); [split; reflexivity|].
  destruct (createAll _ s2) as [[? ?] ?]. split; reflexivity.
Qed.

(** A run of creates that returned nil created every object. *)
Lemma createAll_complete (os : list Object) (s : σ) :
  Forall callOk (createAll os s).1.2 →
  (createAll os s).2 = None
  ∧ callObject <$> (createAll os s).1.2 = Some <$> os.
Proof.
  revert s. induction os as [|o os IH]; intros s.
  - auto.
  - rewrite createAll_cons.
    destruct (client.Create o s) as [s' err].
    destruct (hardFailure err) eqn:Hf.
    + intros Hok. apply Forall_cons in Hok as [Hok _].
      unfold callOk in Hok. simpl in Hok. congruence.
    + specialize (IH s'). destruct (createAll os s') as [[s'' cs] e].
      simpl in *. intros Hok. apply Forall_cons in Hok as [_ Hok].
      destruct (IH Hok) as [-> Ho]. split; [reflexivity|].
      exact (f_equal (cons (Some o)) Ho).
Qed.

Lemma isCreate_not_statusUpdate (cs : list Call) :
  Forall (λ k, isCreate k = true) cs →
  Forall (λ k, isStatusUpdate k = false) cs.
Proof.
  intros Hc. eapply Forall_impl; [exact Hc|].
  intros [] Hk; (reflexivity || discriminate).
Qed.

End QuotaOfPass.

(** ** The pass against the in-memory store, with the Tenant in it *)

(** C3. For a Tenant whose quota fields are all unset, once the client
    lets the Namespace create through (no error, or AlreadyExists) the
    pass creates a ResourceQuota as its second call; that ResourceQuota
    lives in the tenant's namespace and carries exactly the platform
    defaults: requests.cpu 10, requests.memory 20Gi, limits.cpu 20,
    limits.memory 40Gi, pods 100.  No other ResourceQuota is created in
    the pass. *)
Theorem unset_quota_gets_platform_defaults
    (c c1 : Cluster) (req : ctrl.Request) (t : Tenant) (e1 : error) :
  tenants c !! ctrl.Name req = Some t →
  Quota (Spec t) = unsetQuota →
  client.Create (ONamespace (tenantNamespace (ctrl.Name req))) c = (c1, e1) →
  hardFailure e1 = false →
  let r := Reconcile req (fresh c) in
  (∃ q, calls r.1 !! 1%nat
        = Some (CallCreate (OResourceQuota q)
                           (client.Create (OResourceQuota q) c1).2)
        ∧ metav1.Namespace (corev1.ResourceQuota_ObjectMeta q)
          = ctrl.Name req
        ∧ corev1.Hard (corev1.ResourceQuota_Spec q) = platformDefaults
        ∧ resource.Value <$> corev1.Hard (corev1.ResourceQuota_Spec q)
          = platformDefaultValues)
  ∧ ∀ q err, CallCreate (OResourceQuota q) err ∈ calls r.1 →
      metav1.Namespace (corev1.ResourceQuota_ObjectMeta q) = ctrl.Name req
      ∧ corev1.Hard (corev1.ResourceQuota_Spec q) = platformDefaults
      ∧ resource.Value <$> corev1.Hard (corev1.ResourceQuota_Spec q)
        = platformDefaultValues.
Proof.
  intros _ _ E1 H1 r. split.
  - exists (tenantQuota (ctrl.Name req)).
    split; [exact (proj2 (quota_created_after_namespace req c c1 e1 E1 H1))|].
    split; [reflexivity|]. split; [reflexivity|].
    apply platformDefaults_values.
  - intros q err Hin. apply quota_create_is_tenantQuota in Hin. subst q.
    split; [reflexivity|]. split; [reflexivity|].
    apply platformDefaults_values.
Qed.

Lemma unset_quota_gets_platform_defaults_witness :
  let c := clusterOf plainTenant in
  let c1 := (client.Create (ONamespace (tenantNamespace "candidate")) c).1 in
  let r := Reconcile (requestNamed "candidate") (fresh c) in
  (∃ q, calls r.1 !! 1%nat
        = Some (CallCreate (OResourceQuota q)
                           (client.Create (OResourceQuota q) c1).2)
        ∧ metav1.Namespace (corev1.ResourceQuota_ObjectMeta q) = "candidate"
        ∧ corev1.Hard (corev1.ResourceQuota_Spec q) = platformDefaults
        ∧ resource.Value <$> corev1.Hard (corev1.ResourceQuota_Spec q)
          = platformDefaultValues)
  ∧ ∀ q err, CallCreate (OResourceQuota q) err ∈ calls r.1 →
      metav1.Namespace (corev1.ResourceQuota_ObjectMeta q) = "candidate"
      ∧ corev1.Hard (corev1.ResourceQuota_Spec q) = platformDefaults
      ∧ resource.Value <$> corev1.Hard (corev1.ResourceQuota_Spec q)
        = platformDefaultValues.
Proof.
  intros c c1.
  apply (unset_quota_gets_platform_defaults
           c c1 (requestNamed "candidate") plainTenant None).
  - vm_compute. reflexivity.
  - reflexivity.
  - vm_compute. reflexivity.
  - reflexivity.
Defined.

(** C4, as the code has it.  For the Tenant [candidate] that sets
    quota.pods=200 and no other quota field, once the client lets the
    Namespace create through the pass creates a ResourceQuota as its
    second call, and that ResourceQuota carries the platform defaults in
    every field, pods=100 included: the Tenant's quota is not read.  No
    other ResourceQuota is created in the pass. *)
Theorem candidate_quota_keeps_default_pods
    (c c1 : Cluster) (req : ctrl.Request) (t : Tenant) (e1 : error) :
  ctrl.Name req = "candidate" →
  tenants c !! "candidate" = Some t →
  Quota (Spec t) = mkTenantQuota "" "" 200 0 0 →
  client.Create (ONamespace (tenantNamespace "candidate")) c = (c1, e1) →
  hardFailure e1 = false →
  let r := Reconcile req (fresh c) in
  (∃ q, calls r.1 !! 1%nat
        = Some (CallCreate (OResourceQuota q)
                           (client.Create (OResourceQuota q) c1).2)
        ∧ metav1.Namespace (corev1.ResourceQuota_ObjectMeta q) = "candidate"
        ∧ resource.Value <$> corev1.Hard (corev1.ResourceQuota_Spec q)
          = platformDefaultValues
        ∧ resource.Value
            <$> (corev1.Hard (corev1.ResourceQuota_Spec q) !! "pods")
          = Some 100)
  ∧ ∀ q err, CallCreate (OResourceQuota q) err ∈ calls r.1 →
      resource.Value <$> corev1.Hard (corev1.ResourceQuota_Spec q)
      = platformDefaultValues
      ∧ resource.Value
          <$> (corev1.Hard (corev1.ResourceQuota_Spec q) !! "pods")
        = Some 100.
Proof.
  intros Hn _ _ E1 H1 r. rewrite <- Hn in E1. split.
  - exists (tenantQuota (ctrl.Name req)).
    split; [exact (proj2 (quota_created_after_namespace req c c1 e1 E1 H1))|].
    split; [exact Hn|].
    split; [apply platformDefaults_values | reflexivity].
  - intros q err Hin. apply quota_create_is_tenantQuota in Hin. subst q.
    split; [apply platformDefaults_values | reflexivity].
Qed.

Lemma candidate_quota_keeps_default_pods_witness :
  let c := clusterOf candidate in
  let c1 := (client.Create (ONamespace (tenantNamespace "candidate")) c).1 in
  let r := Reconcile (requestNamed "candidate") (fresh c) in
  (∃ q, calls r.1 !! 1%nat
        = Some (CallCreate (OResourceQuota q)
                           (client.Create (OResourceQuota q) c1).2)
        ∧ metav1.Namespace (corev1.ResourceQuota_ObjectMeta q) = "candidate"
        ∧ resource.Value <$> corev1.Hard (corev1.ResourceQuota_Spec q)
          = platformDefaultValues
        ∧ resource.Value
            <$> (corev1.Hard (corev1.ResourceQuota_Spec q) !! "pods")
          = Some 100)
  ∧ ∀ q err, CallCreate (OResourceQuota q) err ∈ calls r.1 →
      resource.Value <$> corev1.Hard (corev1.ResourceQuota_Spec q)
      = platformDefaultValues
      ∧ resource.Value
          <$> (corev1.Hard (corev1.ResourceQuota_Spec q) !! "pods")
        = Some 100.
Proof.
  intros c c1.
  apply (candidate_quota_keeps_default_pods
           c c1 (requestNamed "candidate") candidate None).
  - reflexivity.
  - vm_compute. reflexivity.
  - reflexivity.
  - vm_compute. reflexivity.
  - reflexivity.
Defined.

(** C4, as stated, fails: the store holds the Tenant [candidate] with
    quota.pods=200, the pass creates the ResourceQuota, and its pods limit
    is 100; no ResourceQuota with pods=200 is created. *)
Lemma candidate_pods_200_counterexample :
  let r := Reconcile (requestNamed "candidate") (fresh (clusterOf candidate)) in
  tenants (clusterOf candidate) !! "candidate" = Some candidate
  ∧ Quota (Spec candidate) = mkTenantQuota "" "" 200 0 0
  ∧ calls r.1 !! 1%nat
    = Some (CallCreate (OResourceQuota (tenantQuota "candidate")) None)
  ∧ ¬ ∃ q err,
        CallCreate (OResourceQuota q) err ∈ calls r.1
        ∧ resource.Value
            <$> (corev1.Hard (corev1.ResourceQuota_Spec q) !! "pods")
          = Some 200.
Proof.
  intros r. split; [vm_compute; reflexivity|]. split; [reflexivity|].
  split; [vm_compute; reflexivity|].
  intros (q & err & Hin & Hpods).
  apply quota_create_is_tenantQuota in Hin. subst q.
  vm_compute in Hpods. discriminate.
Qed.

(** C5, as the code has it.  Every Tenant, also one whose quota holds a
    string that is no quantity, is reconciled in the same way: the pass
    does not read or validate the Tenant.  Its first call is the Namespace
    create, every call it makes is a create (no status is written, so no
    phase is set), the Tenants in the store are left as they were, and
    Reconcile returns the empty result, with a nil error exactly when every
    create went through.  Over a store that holds any other Tenants and
    the same child resources the pass makes the same calls, gets the same
    answers and returns the same result. *)
Theorem tenant_spec_is_not_validated
    (c : Cluster) (req : ctrl.Request) (t : Tenant) :
  tenants c !! ctrl.Name req = Some t →
  let r := Reconcile req (fresh c) in
  calls r.1 !! 0%nat
  = Some (CallCreate
            (ONamespace (tenantNamespace (ctrl.Name req)))
            (client.Create (ONamespace (tenantNamespace (ctrl.Name req)))
                           c).2)
  ∧ Forall (λ k, isCreate k = true) (calls r.1)
  ∧ Forall (λ k, isStatusUpdate k = false) (calls r.1)
  ∧ tenants (store r.1) = tenants c
  ∧ (∃ err, r.2 = Returned (ctrl.emptyResult, err)
            ∧ (err = None ↔ Forall callOk (calls r.1)))
  ∧ ∀ c', sameChildren c c' →
      let r' := Reconcile req (fresh c') in
      calls r'.1 = calls r.1 ∧ r'.2 = r.2
      ∧ sameChildren (store r.1) (store r'.1).
Proof.
  intros _ r.
  destruct (Reconcile_run req c) as (Hs & Hc & Hr). fold r in Hs, Hc, Hr.
  pose proof (children_isChild (ctrl.Name req)) as Hch.
  pose proof (createAll_isCreate (children (ctrl.Name req)) c) as Hi.
  rewrite <- Hc in Hi.
  split.
  { rewrite Hc. unfold children. rewrite createAll_cons.
    destruct (client.Create _ c) as [s' err].
    destruct (hardFailure err); [reflexivity|].
    destruct (createAll _ s') as [[? ?] ?]. reflexivity. }
  split; [exact Hi|].
  split; [apply isCreate_not_statusUpdate, Hi|].
  split; [rewrite Hs; apply createAll_frame, Hch|].
  split.
  { exists (createAll (children (ctrl.Name req)) c).2. split; [exact Hr|].
    rewrite Hc. split.
    - intros He.
      pose proof (createAll_result (children (ctrl.Name req)) c) as Hres.
      destruct (createAll (children (ctrl.Name req)) c) as [[s' cs] e].
      simpl in He |- *. subst e.
      destruct Hres as [(_ & _ & Hok) | (pre & k & _ & _ & _ & Hh)];
        [exact Hok | discriminate].
    - intros Hok. apply createAll_complete in Hok. apply Hok. }
  intros c' Hsame r'.
  destruct (Reconcile_run req c') as (Hs' & Hc' & Hr').
  fold r' in Hs', Hc', Hr'.
  destruct (createAll_sameChildren _ c c' Hch Hsame) as (Hcs & He & Hst).
  rewrite Hs, Hs', Hc, Hc', Hr, Hr'.
  split; [symmetry; exact Hcs|]. split; [rewrite He; reflexivity | exact Hst].
Qed.

Lemma tenant_spec_is_not_validated_witness :
  let c := clusterOf malformedTenant in
  let r := Reconcile (requestNamed "candidate") (fresh c) in
  calls r.1 !! 0%nat
  = Some (CallCreate
            (ONamespace (tenantNamespace "candidate"))
            (client.Create (ONamespace (tenantNamespace "candidate")) c).2)
  ∧ Forall (λ k, isCreate k = true) (calls r.1)
  ∧ Forall (λ k, isStatusUpdate k = false) (calls r.1)
  ∧ tenants (store r.1) = tenants c
  ∧ (∃ err, r.2 = Returned (ctrl.emptyResult, err)
            ∧ (err = None ↔ Forall callOk (calls r.1)))
  ∧ ∀ c', sameChildren c c' →
      let r' := Reconcile (requestNamed "candidate") (fresh c') in
      calls r'.1 = calls r.1 ∧ r'.2 = r.2
      ∧ sameChildren (store r.1) (store r'.1).
Proof.
  intros c.
  apply (tenant_spec_is_not_validated
           c (requestNamed "candidate") malformedTenant).
  vm_compute. reflexivity.
Defined.

(** C5, as stated, fails: with quota.cpu="not-a-number" the pass still
    issues its four creates, writes no status, and leaves the Tenant's
    phase empty. *)
Lemma malformed_quota_counterexample :
  let r := Reconcile (requestNamed "candidate")
                     (fresh (clusterOf malformedTenant)) in
  tenants (clusterOf malformedTenant) !! "candidate" = Some malformedTenant
  ∧ CPU (Quota (Spec malformedTenant)) = "not-a-number"
  ∧ resource.ParseQuantity "not-a-number" = None
  ∧ callObject <$> calls r.1 = Some <$> children "candidate"
  ∧ Forall (λ k, isCreate k = true ∧ callError k = None) (calls r.1)
  ∧ calls r.1 ≠ []
  ∧ tenants (store r.1) !! "candidate" = Some malformedTenant
  ∧ Phase (Status malformedTenant) = ""
  ∧ ¬ ∃ t', tenants (store r.1) !! "candidate" = Some t'
            ∧ Phase (Status t') = "Failed".
Proof.
  intros r.
  assert (Hc : calls r.1
               = (λ o, CallCreate o None) <$> children "candidate")
    by (vm_compute; reflexivity).
  assert (Ht : tenants (store r.1) !! "candidate" = Some malformedTenant)
    by (vm_compute; reflexivity).
  split; [vm_compute; reflexivity|]. split; [reflexivity|].
  split; [vm_compute; reflexivity|].
  split; [rewrite Hc; reflexivity|].
  split; [rewrite Hc; repeat constructor|].
  split; [rewrite Hc; discriminate|].
  split; [exact Ht|]. split; [reflexivity|].
  intros (t' & Ht' & Hp). rewrite Ht in Ht'. injection Ht' as <-.
  discriminate.
Qed.

(** C6, as the code has it.  After a pass in which every create went
    through (no error, or AlreadyExists), Reconcile has issued exactly the
    four creates and returns the empty result with a nil error; it issues
    no status write, and the Tenants in the store, status block included,
    are as they were before the pass. *)
Theorem success_returns_nil_without_status_write
    (c : Cluster) (req : ctrl.Request) :
  let r := Reconcile req (fresh c) in
  Forall callOk (calls r.1) →
  r.2 = Returned (ctrl.emptyResult, None)
  ∧ callObject <$> calls r.1 = Some <$> children (ctrl.Name req)
  ∧ Forall (λ k, isCreate k = true) (calls r.1)
  ∧ Forall (λ k, isStatusUpdate k = false) (calls r.1)
  ∧ tenants (store r.1) = tenants c.
Proof.
  intros r.
  destruct (Reconcile_run req c) as (Hs & Hc & Hr). fold r in Hs, Hc, Hr.
  pose proof (createAll_isCreate (children (ctrl.Name req)) c) as Hi.
  rewrite <- Hc in Hi. rewrite Hc. intros Hok.
  apply createAll_complete in Hok as [He Ho].
  rewrite He in Hr. rewrite <- Hc.
  split; [exact Hr|]. split; [rewrite Hc; exact Ho|]. split; [exact Hi|].
  split; [apply isCreate_not_statusUpdate, Hi|].
  rewrite Hs. apply createAll_frame, children_isChild.
Qed.

Lemma success_returns_nil_without_status_write_witness :
  let r := Reconcile (requestNamed "candidate") (fresh (clusterOf candidate)) in
  r.2 = Returned (ctrl.emptyResult, None)
  ∧ callObject <$> calls r.1 = Some <$> children "candidate"
  ∧ Forall (λ k, isCreate k = true) (calls r.1)
  ∧ Forall (λ k, isStatusUpdate k = false) (calls r.1)
  ∧ tenants (store r.1) = tenants (clusterOf candidate).
Proof.
  apply (success_returns_nil_without_status_write
           (clusterOf candidate) (requestNamed "candidate")).
  vm_compute. repeat constructor.
Defined.

(** C6, as stated, fails: all four creates of the pass succeed, yet no
    status write is among its calls and the stored Tenant keeps its empty
    phase and its four flags at false. *)
Lemma status_write_counterexample :
  let r := Reconcile (requestNamed "candidate") (fresh (clusterOf candidate)) in
  calls r.1 = (λ o, CallCreate o None) <$> children "candidate"
  ∧ Forall callOk (calls r.1)
  ∧ ¬ Exists (λ k, isStatusUpdate k = true) (calls r.1)
  ∧ tenants (store r.1) !! "candidate" = Some candidate
  ∧ Status candidate = mkTenantStatus "" false false false false
  ∧ ¬ ∃ t', tenants (store r.1) !! "candidate" = Some t'
            ∧ Phase (Status t') = "Ready".
Proof.
  intros r.
  assert (Hc : calls r.1
               = (λ o, CallCreate o None) <$> children "candidate")
    by (vm_compute; reflexivity).
  assert (Ht : tenants (store r.1) !! "candidate" = Some candidate)
    by (vm_compute; reflexivity).
  split; [exact Hc|].
  split; [rewrite Hc; repeat constructor|].
  split.
  { rewrite Hc. intros Hex. apply Exists_exists in Hex as (k & Hin & Hk).
    simpl in Hin.
    repeat (apply elem_of_cons in Hin as [-> | Hin]; [discriminate|]).
    apply elem_of_nil in Hin. contradiction. }
  split; [exact Ht|]. split; [reflexivity|].
  intros (t' & Ht' & Hp). rewrite Ht in Ht'. injection Ht' as <-.
  discriminate.
Qed.

(** C9. The creates of a pass depend on the request's name only.  Two
    passes for requests of the same name (their namespaces may differ),
    over stores that hold the same child resources and refuse the same keys
    but hold Tenants that differ in any way (owner, costCenter, quota,
    allowedIntegrations, contacts), issue the same calls with the same
    answers and return the same result; the objects they create are the
    children of the name, and they leave the same child resources. *)
Theorem creates_depend_on_name_only
    (c1 c2 : Cluster) (req1 req2 : ctrl.Request) :
  ctrl.Name req1 = ctrl.Name req2 →
  sameChildren c1 c2 →
  let r1 := Reconcile req1 (fresh c1) in
  let r2 := Reconcile req2 (fresh c2) in
  calls r1.1 = calls r2.1
  ∧ r1.2 = r2.2
  ∧ sameChildren (store r1.1) (store r2.1)
  ∧ (∃ errs, calls r1.1
             = zip_with CallCreate (children (ctrl.Name req1)) errs)
  ∧ tenants (store r1.1) = tenants c1
  ∧ tenants (store r2.1) = tenants c2.
Proof.
  intros Hn Hsame r1 r2.
  destruct (Reconcile_run req1 c1) as (Hs1 & Hc1 & Hr1).
  destruct (Reconcile_run req2 c2) as (Hs2 & Hc2 & Hr2).
  fold r1 in Hs1, Hc1, Hr1. fold r2 in Hs2, Hc2, Hr2.
  rewrite <- Hn in Hs2, Hc2, Hr2.
  pose proof (children_isChild (ctrl.Name req1)) as Hch.
  destruct (createAll_sameChildren _ c1 c2 Hch Hsame) as (Hc & He & Hs).
  rewrite Hs1, Hs2, Hc1, Hc2, Hr1, Hr2.
  split; [exact Hc|]. split; [rewrite He; reflexivity|]. split; [exact Hs|].
  split.
  { destruct (createAll_calls (children (ctrl.Name req1)) c1)
      as (errs & Hz & _). exists errs. exact Hz. }
  split; apply createAll_frame, Hch.
Qed.

Lemma creates_depend_on_name_only_witness :
  let r1 := Reconcile (requestNamed "candidate") (fresh (clusterOf candidate)) in
  let r2 := Reconcile
              (ctrl.mkRequest (types.mkNamespacedName "platform" "candidate"))
              (fresh (clusterOf malformedTenant)) in
  calls r1.1 = calls r2.1
  ∧ r1.2 = r2.2
  ∧ sameChildren (store r1.1) (store r2.1)
  ∧ (∃ errs, calls r1.1 = zip_with CallCreate (children "candidate") errs)
  ∧ tenants (store r1.1) = tenants (clusterOf candidate)
  ∧ tenants (store r2.1) = tenants (clusterOf malformedTenant).
Proof.
  apply (creates_depend_on_name_only
           (clusterOf candidate) (clusterOf malformedTenant)
           (requestNamed "candidate")
           (ctrl.mkRequest (types.mkNamespacedName "platform" "candidate"))).
  - reflexivity.
  - split; reflexivity.
Defined.

(** Over a store that refuses no key, every pass succeeds. *)
Lemma createAll_without_faults (os : list Object) (c : Cluster) :
  Forall isChild os → faults c = ∅ → (createAll os c).2 = None.
Proof.
  intros Hos. revert c. induction Hos as [|o os Ho Hos IH]; intros c Hf.
  - reflexivity.
  - rewrite createAll_cons.
    change (client.Create o c) with (cluster_Create o c).
    destruct (cluster_Create o c) as [c1 err] eqn:E.
    destruct (cluster_Create_frame o c c1 err Ho E) as [_ Hf1].
    rewrite Hf in Hf1. specialize (IH c1 Hf1).
    rewrite (cluster_Create_child o c Ho), Hf, lookup_empty in E.
    assert (Hh : hardFailure err = false).
    { destruct (objects c !! keyOf o); injection E as _ <-; reflexivity. }
    rewrite Hh. destruct (createAll os c1) as [[c2 cs] e]. exact IH.
Qed.

(** X5. Over a store that refuses no key a pass always returns nil,
    whatever the store already holds under the keys of the children. *)
Lemma pass_without_faults_succeeds (c : Cluster) (req : ctrl.Request) :
  faults c = ∅ →
  (Reconcile req (fresh c)).2 = Returned (ctrl.emptyResult, None).
Proof.
  intros Hf. destruct (Reconcile_run req c) as (_ & _ & ->).
  rewrite (createAll_without_faults _ c (children_isChild _) Hf).
  reflexivity.
Qed.

(** C2. When a pass has succeeded, running it again on the store it left
    creates nothing new: the second pass sends the same four objects,
    every one of its four creates is answered AlreadyExists, Reconcile
    takes that as success and returns nil, and the store (every child
    resource, field by field, and their number) is as the first pass left
    it. *)
Theorem second_pass_is_already_present (c : Cluster) (req : ctrl.Request) :
  let r1 := Reconcile req (fresh c) in
  r1.2 = Returned (ctrl.emptyResult, None) →
  let r2 := Reconcile req (fresh (store r1.1)) in
  r2.2 = Returned (ctrl.emptyResult, None)
  ∧ callObject <$> calls r1.1 = Some <$> children (ctrl.Name req)
  ∧ callObject <$> calls r2.1 = Some <$> children (ctrl.Name req)
  ∧ length (calls r2.1) = 4%nat
  ∧ Forall (λ k, IsAlreadyExists (callError k) = true) (calls r2.1)
  ∧ store r2.1 = store r1.1
  ∧ size (objects (store r2.1)) = size (objects (store r1.1)).
Proof.
  intros r1 Hnil r2.
  destruct (Reconcile_run req c) as (Hs1 & Hc1 & Hr1). fold r1 in Hs1, Hc1, Hr1.
  destruct (Reconcile_run req (store r1.1)) as (Hs2 & Hc2 & Hr2).
  fold r2 in Hs2, Hc2, Hr2.
  pose proof (children_isChild (ctrl.Name req)) as Hch.
  assert (He1 : (createAll (children (ctrl.Name req)) c).2 = None).
  { rewrite Hr1 in Hnil. congruence. }
  pose proof (createAll_settles _ c Hch He1) as Hset. rewrite <- Hs1 in Hset.
  destruct (createAll_settled _ _ Hset) as (Hst & He2 & Ho2 & Hae).
  rewrite <- Hs2 in Hst. rewrite <- Hc2 in Ho2, Hae. rewrite He2 in Hr2.
  assert (Ho1 : callObject <$> calls r1.1 = Some <$> children (ctrl.Name req)).
  { rewrite Hc1. apply createAll_complete.
    pose proof (createAll_result (children (ctrl.Name req)) c) as Hres.
    destruct (createAll (children (ctrl.Name req)) c) as [[s' cs] e].
    simpl in He1 |- *. subst e.
    destruct Hres as [(_ & _ & Hok) | (pre & k & _ & _ & _ & Hh)];
      [exact Hok | discriminate]. }
  split; [exact Hr2|]. split; [exact Ho1|]. split; [exact Ho2|].
  split.
  { apply (f_equal length) in Ho2. rewrite !length_fmap in Ho2. exact Ho2. }
  split; [exact Hae|]. split; [exact Hst|]. rewrite Hst. reflexivity.
Qed.

Lemma second_pass_is_already_present_witness :
  let r1 := Reconcile (requestNamed "candidate") (fresh (clusterOf candidate)) in
  let r2 := Reconcile (requestNamed "candidate") (fresh (store r1.1)) in
  r2.2 = Returned (ctrl.emptyResult, None)
  ∧ callObject <$> calls r1.1 = Some <$> children "candidate"
  ∧ callObject <$> calls r2.1 = Some <$> children "candidate"
  ∧ length (calls r2.1) = 4%nat
  ∧ Forall (λ k, IsAlreadyExists (callError k) = true) (calls r2.1)
  ∧ store r2.1 = store r1.1
  ∧ size (objects (store r2.1)) = size (objects (store r1.1)).
Proof.
  apply (second_pass_is_already_present
           (clusterOf candidate) (requestNamed "candidate")).
  vm_compute. reflexivity.
Defined.

(** * Further properties of the reconciler *)

(** ** The log of a pass *)

Section PassLog.

Context {σ : Type} `{!client.Client σ}.

(** X1. A pass logs its opening line and then one line per create it
    issued, in order: the error line with the error of the create when the
    create failed for good, the created/exists line otherwise. *)
Theorem pass_log_follows_calls (req : ctrl.Request) (s : σ) :
  let r := Reconcile req (fresh s) in
  logs r.1 = passLog (ctrl.Name req) (calls r.1)
  ∧ length (logs r.1) = S (length (calls r.1))
  ∧ (Exists (λ l, isLogError l = true) (logs r.1)
     ↔ ∃ e, r.2 = Returned (ctrl.emptyResult, Some e)).
Proof.
  intros r.
  assert (Hlog : logs r.1 = passLog (ctrl.Name req) (calls r.1)).
  { subst r. destruct parse_literals as (P1 & P2 & P3 & P4 & P5).
    unfold Reconcile, passLog.
    rewrite run_logInfo. norm_world.
    fold (tenantNamespace (ctrl.Name req)).
    destruct (client.Create (ONamespace (tenantNamespace (ctrl.Name req))) s)
      as [s1 e1] eqn:E1.
    erewrite run_Create by exact E1. norm_world.
    fold (hardFailure e1). destruct (hardFailure e1) eqn:H1.
    { rewrite run_logError. simpl.
      rewrite H1. reflexivity. }
    rewrite run_logInfo. norm_world.
    rewrite (run_MustParse _ _ _ _ P1), (run_MustParse _ _ _ _ P2),
      (run_MustParse _ _ _ _ P3), (run_MustParse _ _ _ _ P4),
      (run_MustParse _ _ _ _ P5).
    fold platformDefaults. fold (tenantQuota (ctrl.Name req)).
    destruct (client.Create (OResourceQuota (tenantQuota (ctrl.Name req))) s1)
      as [s2 e2] eqn:E2.
    erewrite run_Create by exact E2. norm_world.
    fold (hardFailure e2). destruct (hardFailure e2) eqn:H2.
    { rewrite run_logError. simpl.
      rewrite H1, H2.
      reflexivity. }
    rewrite run_logInfo. norm_world.
    fold (defaultDenyIngress (ctrl.Name req)).
    destruct (client.Create
                (ONetworkPolicy (defaultDenyIngress (ctrl.Name req))) s2)
      as [s3 e3] eqn:E3.
    erewrite run_Create by exact E3. norm_world.
    fold (hardFailure e3). destruct (hardFailure e3) eqn:H3.
    { rewrite run_logError. simpl.
      rewrite H1, H2, H3.
      reflexivity. }
    rewrite run_logInfo. norm_world.
    fold (developersBinding (ctrl.Name req)).
    destruct (client.Create
                (ORoleBinding (developersBinding (ctrl.Name req))) s3)
      as [s4 e4] eqn:E4.
    erewrite run_Create by exact E4. norm_world.
    fold (hardFailure e4). destruct (hardFailure e4) eqn:H4.
    { rewrite run_logError. simpl.
      rewrite H1, H2, H3, H4.
      reflexivity. }
    rewrite run_logInfo. simpl. rewrite H1, H2, H3, H4.
    reflexivity. }
  split; [exact Hlog|].
  destruct (Reconcile_run req s) as (_ & Hc & Hr). fold r in Hc, Hr.
  pose proof (createAll_result (children (ctrl.Name req)) s) as Hres.
  pose proof (createAll_isCreate (children (ctrl.Name req)) s) as Hi.
  destruct (createAll (children (ctrl.Name req)) s) as [[s' cs] e].
  simpl in Hc, Hr, Hi. rewrite Hlog, Hr, Hc. clear Hlog Hr Hc r.
  assert (Hlen : ∀ l, Forall (λ c, isCreate c = true) l →
                      length (omap (logOfCall (ctrl.Name req)) l) = length l).
  { induction 1 as [|[] l Hk _ IH]; try discriminate; simpl; auto. }
  assert (Hok : ∀ l, Forall (λ c, isCreate c = true) l → Forall callOk l →
                     ¬ Exists (λ x, isLogError x = true)
                         (omap (logOfCall (ctrl.Name req)) l)).
  { induction 1 as [|[] l Hk _ IH]; try discriminate; intros Hf Hex.
    - apply Exists_nil in Hex. exact Hex.
    - apply Forall_cons in Hf as [Hf1 Hf]. unfold callOk in Hf1.
      simpl in Hf1.
      destruct obj; simpl in Hex; rewrite Hf1 in Hex;
        apply Exists_cons in Hex as [Hex|Hex];
        solve [discriminate | exact (IH Hf Hex)]. }
  split; [unfold passLog; simpl; rewrite (Hlen cs Hi); reflexivity|].
  unfold passLog. rewrite Exists_cons.
  destruct Hres as [(-> & _ & Hall) | (pre & c & -> & Hpre & He & Hh)].
  - split.
    + intros [Hd | Hex]; [discriminate|]. destruct (Hok cs Hi Hall Hex).
    + intros (e' & [=]).
  - split.
    + intros _. destruct e as [e'|]; [eauto | discriminate].
    + intros _. right.
      apply Forall_app in Hi as [_ Hic]. apply Forall_cons in Hic as [Hic _].
      destruct c; try discriminate. simpl in He. subst err.
      rewrite omap_app. apply Exists_app. right.
      destruct obj; simpl; rewrite Hh; constructor; reflexivity.
Qed.

End PassLog.

(** ** What a pass leaves in the in-memory store *)

Lemma cluster_Create_objects (o : Object) (c : Cluster) :
  isChild o →
  objects (cluster_Create o c).1 = objects c
  ∨ (faults c !! keyOf o = None ∧ objects c !! keyOf o = None
     ∧ objects (cluster_Create o c).1 = <[keyOf o := o]> (objects c)).
Proof.
  intros Ho. rewrite (cluster_Create_child o c Ho).
  destruct (faults c !! keyOf o); [left; reflexivity|].
  destruct (objects c !! keyOf o); [left; reflexivity|].
  right. auto.
Qed.

Lemma createAll_objects_subseteq (os : list Object) (c : Cluster) :
  Forall isChild os → objects c ⊆ objects (createAll os c).1.1.
Proof.
  intros Hos. revert c. induction Hos as [|o os Ho Hos IH]; intros c.
  - reflexivity.
  - rewrite createAll_cons.
    change (client.Create o c) with (cluster_Create o c).
    pose proof (cluster_Create_objects o c Ho) as Hstep.
    destruct (cluster_Create o c) as [c1 err]. simpl in Hstep.
    assert (Hsub : objects c ⊆ objects c1).
    { destruct Hstep as [-> | (_ & Hn & ->)];
        [reflexivity | apply insert_subseteq, Hn]. }
    destruct (hardFailure err); [exact Hsub|].
    specialize (IH c1). destruct (createAll os c1) as [[c2 cs] e].
    simpl in *. etrans; [exact Hsub | exact IH].
Qed.

Lemma createAll_other_keys (os : list Object) (c : Cluster) (k : ObjKey) :
  Forall isChild os → k ∉ keyOf <$> os →
  objects (createAll os c).1.1 !! k = objects c !! k.
Proof.
  intros Hos. revert c. induction Hos as [|o os Ho Hos IH]; intros c Hk.
  - reflexivity.
  - rewrite fmap_cons, not_elem_of_cons in Hk. destruct Hk as [Hne Hk].
    rewrite createAll_cons.
    change (client.Create o c) with (cluster_Create o c).
    pose proof (cluster_Create_objects o c Ho) as Hstep.
    destruct (cluster_Create o c) as [c1 err]. simpl in Hstep.
    assert (H1 : objects c1 !! k = objects c !! k).
    { destruct Hstep as [-> | (_ & _ & ->)]; [reflexivity|].
      apply lookup_insert_ne. congruence. }
    destruct (hardFailure err); [exact H1|].
    specialize (IH c1 Hk). destruct (createAll os c1) as [[c2 cs] e].
    simpl in *. rewrite IH. exact H1.
Qed.

(** After a run that returned nil, an object whose key was free and not
    refused is stored as it was sent. *)
Lemma createAll_stores (os : list Object) (c : Cluster) (o : Object) :
  Forall isChild os → NoDup (keyOf <$> os) → (createAll os c).2 = None →
  o ∈ os → faults c !! keyOf o = None → objects c !! keyOf o = None →
  objects (createAll os c).1.1 !! keyOf o = Some o.
Proof.
  intros Hos. revert c.
  induction Hos as [|o1 os Ho1 Hos IH]; intros c Hnd He Hin Hf Hn.
  - apply elem_of_nil in Hin. contradiction.
  - rewrite fmap_cons in Hnd. apply NoDup_cons in Hnd as [Hnotin Hnd].
    pose proof (createAll_objects_subseteq os) as Hsub.
    rewrite createAll_cons in He |- *.
    change (client.Create o1 c) with (cluster_Create o1 c) in He |- *.
    pose proof (cluster_Create_objects o1 c Ho1) as Hstep.
    destruct (cluster_Create o1 c) as [c1 err] eqn:E. simpl in Hstep.
    destruct (cluster_Create_frame o1 c c1 err Ho1 E) as [_ Hf1].
    destruct (hardFailure err) eqn:Hh.
    { simpl in He. subst err. discriminate. }
    specialize (Hsub c1 Hos). specialize (IH c1 Hnd).
    destruct (createAll os c1) as [[c2 cs] e]. simpl in *.
    apply elem_of_cons in Hin as [-> | Hin].
    + rewrite (cluster_Create_child o1 c Ho1), Hf, Hn in E.
      injection E as <- <-. simpl in Hsub.
      eapply lookup_weaken; [|exact Hsub]. apply lookup_insert_eq.
    + apply IH; [exact He | exact Hin | rewrite Hf1; exact Hf |].
      assert (Hne : keyOf o1 ≠ keyOf o).
      { intros Heq. apply Hnotin. rewrite Heq.
        apply list_elem_of_fmap. eauto. }
      destruct Hstep as [-> | (_ & _ & ->)]; [exact Hn|].
      rewrite lookup_insert_ne by exact Hne. exact Hn.
Qed.

Lemma children_keys (tenantName : string) :
  keyOf <$> children tenantName
  = [ (KNamespace, "", tenantName);
      (KResourceQuota, tenantName, "tenant-quota");
      (KNetworkPolicy, tenantName, "default-deny-ingress");
      (KRoleBinding, tenantName, tenantName +:+ "-developers") ].
Proof. reflexivity. Qed.

Lemma children_keys_NoDup (tenantName : string) :
  NoDup (keyOf <$> children tenantName).
Proof.
  rewrite children_keys. apply NoDup_ListNoDup.
  repeat constructor; simpl; intuition congruence.
Qed.

(** The children of two different names share no key. *)
Lemma children_keys_disjoint (n1 n2 : string) (k : ObjKey) :
  n1 ≠ n2 → k ∈ keyOf <$> children n1 → k ∉ keyOf <$> children n2.
Proof.
  intros Hne H1 H2. rewrite children_keys in H1, H2.
  repeat (apply elem_of_cons in H1 as [-> | H1];
          [repeat (apply elem_of_cons in H2 as [H2 | H2];
                   [congruence|]);
           apply elem_of_nil in H2; contradiction|]).
  apply elem_of_nil in H1. contradiction.
Qed.

(** X2. A pass never deletes or overwrites: every object the store held
    before the pass is still held, unchanged, after it (also one that sits
    under the key of a child with other field values), and the Tenants and
    the refused keys are as before. *)
Theorem pass_never_overwrites (c : Cluster) (req : ctrl.Request) :
  let r := Reconcile req (fresh c) in
  objects c ⊆ objects (store r.1)
  ∧ (∀ k o, objects c !! k = Some o → objects (store r.1) !! k = Some o)
  ∧ tenants (store r.1) = tenants c
  ∧ faults (store r.1) = faults c.
Proof.
  intros r. destruct (Reconcile_run req c) as (Hs & _ & _). fold r in Hs.
  rewrite Hs.
  pose proof (createAll_objects_subseteq _ c
                (children_isChild (ctrl.Name req))) as Hsub.
  split; [exact Hsub|]. split.
  - intros k o Hk. eapply lookup_weaken; [exact Hk | exact Hsub].
  - apply createAll_frame, children_isChild.
Qed.

(** X3. A pass changes the store only under the keys of the four
    children of its name: every other key holds after the pass what it
    held before. *)
Theorem pass_touches_only_children_keys
    (c : Cluster) (req : ctrl.Request) (k : ObjKey) :
  k ∉ keyOf <$> children (ctrl.Name req) →
  objects (store (Reconcile req (fresh c)).1) !! k = objects c !! k.
Proof.
  intros Hk. destruct (Reconcile_run req c) as (-> & _ & _).
  apply createAll_other_keys; [apply children_isChild | exact Hk].
Qed.

Lemma pass_touches_only_children_keys_witness :
  objects (store (Reconcile (requestNamed "candidate")
                            (fresh (clusterOf candidate))).1)
    !! (KNamespace, "", "hirer")
  = objects (clusterOf candidate) !! (KNamespace, "", "hirer").
Proof.
  apply (pass_touches_only_children_keys
           (clusterOf candidate) (requestNamed "candidate")
           (KNamespace, "", "hirer")).
  vm_compute. intros H.
  repeat (apply elem_of_cons in H as [H | H]; [discriminate|]).
  apply elem_of_nil in H. exact H.
Defined.

(** X4. After a pass that returned nil, every child whose key the store
    does not refuse is held by the store; a child whose key was free
    before the pass is held exactly as the pass built it. *)
Theorem successful_pass_stores_children
    (c : Cluster) (req : ctrl.Request) (o : Object) :
  let r := Reconcile req (fresh c) in
  r.2 = Returned (ctrl.emptyResult, None) →
  o ∈ children (ctrl.Name req) →
  faults c !! keyOf o = None →
  is_Some (objects (store r.1) !! keyOf o)
  ∧ (objects c !! keyOf o = None →
     objects (store r.1) !! keyOf o = Some o).
Proof.
  intros r Hnil Hin Hf.
  destruct (Reconcile_run req c) as (Hs & _ & Hr). fold r in Hs, Hr.
  pose proof (children_isChild (ctrl.Name req)) as Hch.
  assert (He : (createAll (children (ctrl.Name req)) c).2 = None)
    by (rewrite Hr in Hnil; congruence).
  rewrite Hs. split.
  - pose proof (createAll_settles _ c Hch He) as Hset.
    rewrite Forall_forall in Hset. specialize (Hset o Hin).
    assert (Ho : isChild o) by (rewrite Forall_forall in Hch; auto).
    apply (settled_iff o _ Ho) in Hset.
    destruct (createAll_frame _ c Hch) as [_ Hfr]. rewrite Hfr in Hset.
    destruct Hset as [(e & Hsome & _) | [_ Hsome]];
      [congruence | exact Hsome].
  - intros Hn. apply createAll_stores; auto using children_keys_NoDup.
Qed.

Lemma successful_pass_stores_children_witness :
  let r := Reconcile (requestNamed "candidate") (fresh (clusterOf candidate)) in
  is_Some (objects (store r.1)
             !! keyOf (ORoleBinding (developersBinding "candidate")))
  ∧ (objects (clusterOf candidate)
       !! keyOf (ORoleBinding (developersBinding "candidate")) = None →
     objects (store r.1)
       !! keyOf (ORoleBinding (developersBinding "candidate"))
     = Some (ORoleBinding (developersBinding "candidate"))).
Proof.
  apply (successful_pass_stores_children
           (clusterOf candidate) (requestNamed "candidate")
           (ORoleBinding (developersBinding "candidate"))).
  - vm_compute. reflexivity.
  - unfold children. do 3 apply list_elem_of_further.
    apply list_elem_of_here.
  - vm_compute. reflexivity.
Defined.

Lemma pass_without_faults_succeeds_witness :
  (Reconcile (requestNamed "candidate") (fresh (clusterOf malformedTenant))).2
  = Returned (ctrl.emptyResult, None).
Proof.
  apply (pass_without_faults_succeeds
           (clusterOf malformedTenant) (requestNamed "candidate")).
  reflexivity.
Defined.

(** ** Passes for different tenants *)

(** X6. A pass for one tenant leaves the children of every other tenant
    alone: under each key of a child of another name the store holds
    after the pass what it held before. *)
Theorem pass_leaves_other_tenants_alone
    (c : Cluster) (n1 n2 : string) (o : Object) :
  n1 ≠ n2 → o ∈ children n2 →
  objects (store (pass n1 c).1) !! keyOf o = objects c !! keyOf o.
Proof.
  intros Hne Hin. unfold pass.
  destruct (Reconcile_run (requestNamed n1) c) as (-> & _ & _).
  apply createAll_other_keys; [apply children_isChild|].
  intros Hk. apply (children_keys_disjoint n1 n2 (keyOf o) Hne Hk).
  apply list_elem_of_fmap. eauto.
Qed.

Lemma pass_leaves_other_tenants_alone_witness :
  objects (store (pass "candidate" (clusterOf candidate)).1)
    !! keyOf (OResourceQuota (tenantQuota "hirer"))
  = objects (clusterOf candidate)
      !! keyOf (OResourceQuota (tenantQuota "hirer")).
Proof.
  apply (pass_leaves_other_tenants_alone
           (clusterOf candidate) "candidate" "hirer"
           (OResourceQuota (tenantQuota "hirer"))).
  - discriminate.
  - unfold children. apply list_elem_of_further, list_elem_of_here.
Defined.

(** Over stores that agree on the keys of the objects, a run of creates
    makes the same calls, gets the same answers, and the stores it leaves
    agree on those keys again. *)
Lemma createAll_agreeOn (K : list ObjKey) (os : list Object)
    (c1 c2 : Cluster) :
  Forall isChild os → (∀ o, o ∈ os → keyOf o ∈ K) → agreeOn K c1 c2 →
  (createAll os c1).1.2 = (createAll os c2).1.2
  ∧ (createAll os c1).2 = (createAll os c2).2
  ∧ agreeOn K (createAll os c1).1.1 (createAll os c2).1.1.
Proof.
  intros Hos. revert c1 c2.
  induction Hos as [|o os Ho Hos IH]; intros c1 c2 HK Hag.
  - auto.
  - assert (Hstep : (cluster_Create o c1).2 = (cluster_Create o c2).2
                    ∧ agreeOn K (cluster_Create o c1).1 (cluster_Create o c2).1).
    { destruct Hag as [Hf Hobj].
      rewrite (cluster_Create_child o c1 Ho), (cluster_Create_child o c2 Ho).
      rewrite Hf, (Hobj (keyOf o)) by (apply HK; left).
      destruct (faults c2 !! keyOf o); [split; [reflexivity | split; assumption]|].
      destruct (objects c2 !! keyOf o);
        [split; [reflexivity | split; assumption]|].
      split; [reflexivity|]. split; [reflexivity|]. simpl. intros k Hk.
      destruct (decide (keyOf o = k)) as [<- | Hne].
      - rewrite !lookup_insert_eq. reflexivity.
      - rewrite !lookup_insert_ne by exact Hne. apply Hobj, Hk. }
    rewrite !createAll_cons.
    change (client.Create o c1) with (cluster_Create o c1).
    change (client.Create o c2) with (cluster_Create o c2).
    destruct Hstep as [He Hag'].
    destruct (cluster_Create o c1) as [c1' e1].
    destruct (cluster_Create o c2) as [c2' e2].
    simpl in He, Hag'. subst e2.
    destruct (hardFailure e1); [auto|].
    assert (HK' : ∀ o', o' ∈ os → keyOf o' ∈ K)
      by (intros o' Ho'; apply HK; right; exact Ho').
    specialize (IH c1' c2' HK' Hag').
    destruct (createAll os c1') as [[d1 cs1] r1].
    destruct (createAll os c2') as [[d2 cs2] r2].
    simpl in *. destruct IH as (-> & -> & Hd). auto.
Qed.

(** A pass for another name leaves a store that agrees with the one it
    found on the keys of this name. *)
Lemma pass_agreeOn_other (c : Cluster) (n1 n2 : string) :
  n1 ≠ n2 →
  agreeOn (keyOf <$> children n2) c (store (pass n1 c).1).
Proof.
  intros Hne. unfold pass.
  destruct (Reconcile_run (requestNamed n1) c) as (-> & _ & _).
  destruct (createAll_frame _ c (children_isChild n1)) as [_ Hf].
  split; [symmetry; exact Hf|]. intros k Hk. symmetry.
  apply createAll_other_keys; [apply children_isChild|].
  intros Hk1. exact (children_keys_disjoint n1 n2 k Hne Hk1 Hk).
Qed.

Lemma pass_run (n : string) (c : Cluster) :
  store (pass n c).1 = (createAll (children n) c).1.1
  ∧ calls (pass n c).1 = (createAll (children n) c).1.2
  ∧ (pass n c).2 = Returned (ctrl.emptyResult, (createAll (children n) c).2).
Proof. exact (Reconcile_run (requestNamed n) c). Qed.

Lemma pass_agreeOn (c1 c2 : Cluster) (n : string) :
  agreeOn (keyOf <$> children n) c1 c2 →
  calls (pass n c1).1 = calls (pass n c2).1
  ∧ (pass n c1).2 = (pass n c2).2
  ∧ agreeOn (keyOf <$> children n) (store (pass n c1).1) (store (pass n c2).1).
Proof.
  intros Hag.
  destruct (pass_run n c1) as (-> & -> & ->).
  destruct (pass_run n c2) as (-> & -> & ->).
  destruct (createAll_agreeOn (keyOf <$> children n) (children n) c1 c2)
    as (Hc & He & Hs); auto using children_isChild.
  { intros o Ho. apply list_elem_of_fmap. eauto. }
  rewrite He. auto.
Qed.

(** X7. Passes for two different tenants do not depend on their order:
    each pass makes the same calls, gets the same answers and returns the
    same result whether it runs first or second, and the store is the same
    after either order. *)
Theorem passes_for_different_tenants_commute (c : Cluster) (n1 n2 : string) :
  n1 ≠ n2 →
  let a := pass n1 c in
  let b := pass n2 (store a.1) in
  let b' := pass n2 c in
  let a' := pass n1 (store b'.1) in
  calls a'.1 = calls a.1 ∧ a'.2 = a.2
  ∧ calls b.1 = calls b'.1 ∧ b.2 = b'.2
  ∧ store b.1 = store a'.1.
Proof.
  intros Hne a b b' a'.
  assert (Hne' : n2 ≠ n1) by congruence.
  pose proof (pass_agreeOn_other c n1 n2 Hne) as Hc_a.
  pose proof (pass_agreeOn_other c n2 n1 Hne') as Hc_b'.
  fold a in Hc_a. fold b' in Hc_b'.
  destruct (pass_agreeOn _ _ n2 Hc_a) as (Hb1 & Hb2 & Hb3).
  destruct (pass_agreeOn _ _ n1 Hc_b') as (Ha1 & Ha2 & Ha3).
  fold a a' in Ha1, Ha2, Ha3. fold b b' in Hb1, Hb2, Hb3.
  split; [symmetry; exact Ha1|]. split; [symmetry; exact Ha2|].
  split; [symmetry; exact Hb1|]. split; [symmetry; exact Hb2|].
  pose proof (pass_agreeOn_other (store a.1) n2 n1 Hne') as Hab.
  pose proof (pass_agreeOn_other (store b'.1) n1 n2 Hne) as Hba.
  fold b in Hab. fold a' in Hba.
  assert (Ht : ∀ n d, tenants (store (pass n d).1) = tenants d).
  { intros n d. unfold pass.
    destruct (Reconcile_run (requestNamed n) d) as (-> & _ & _).
    apply createAll_frame, children_isChild. }
  assert (Hother : ∀ n d k, k ∉ keyOf <$> children n →
                     objects (store (pass n d).1) !! k = objects d !! k).
  { intros n d k Hk. unfold pass.
    destruct (Reconcile_run (requestNamed n) d) as (-> & _ & _).
    apply createAll_other_keys; [apply children_isChild | exact Hk]. }
  assert (Hten : tenants (store b.1) = tenants (store a'.1)).
  { subst a b a' b'. rewrite !Ht. reflexivity. }
  assert (Hfl : faults (store b.1) = faults (store a'.1)).
  { destruct Hab as [Hab _], Hba as [Hba _], Hc_a as [Hca _],
      Hc_b' as [Hcb _]. congruence. }
  assert (Hobj : objects (store b.1) = objects (store a'.1)).
  { apply map_eq. intros k.
    destruct (decide (k ∈ keyOf <$> children n1)) as [H1 | H1].
    - destruct Hab as [_ Hab]. rewrite <- (Hab k H1).
      destruct Ha3 as [_ Ha3]. exact (Ha3 k H1).
    - destruct (decide (k ∈ keyOf <$> children n2)) as [H2 | H2].
      + destruct Hba as [_ Hba]. rewrite <- (Hba k H2).
        destruct Hb3 as [_ Hb3]. symmetry. exact (Hb3 k H2).
      + subst a b a' b'. rewrite !Hother by assumption. reflexivity. }
  destruct (store b.1), (store a'.1). simpl in *. congruence.
Qed.

Lemma passes_for_different_tenants_commute_witness :
  let a := pass "candidate" flakyCluster in
  let b := pass "hirer" (store a.1) in
  let b' := pass "hirer" flakyCluster in
  let a' := pass "candidate" (store b'.1) in
  calls a'.1 = calls a.1 ∧ a'.2 = a.2
  ∧ calls b.1 = calls b'.1 ∧ b.2 = b'.2
  ∧ store b.1 = store a'.1.
Proof.
  apply (passes_for_different_tenants_commute flakyCluster "candidate" "hirer").
  discriminate.
Defined.

(** ** The scope of what a pass creates *)

(** X8. Whatever a pass sends to the store is scoped to its tenant: the
    Namespace is the cluster-scoped one named after the tenant, every other
    object lives in that namespace, and a RoleBinding grants the
    ClusterRole edit to the group of the tenant's team and to no other
    subject. *)
Theorem pass_objects_scoped_to_tenant
    {σ : Type} `{!client.Client σ} (req : ctrl.Request) (s : σ) :
  Forall (λ c, ∃ o, callObject c = Some o
                    ∧ scopedTo (ctrl.Name req) o
                    ∧ grantsEditToTeam (ctrl.Name req) o)
         (calls (Reconcile req (fresh s)).1).
Proof.
  apply Forall_forall. intros c Hin.
  destruct (Reconcile_run req s) as (_ & Hc & _). rewrite Hc in Hin.
  destruct (createAll_calls (children (ctrl.Name req)) s) as (errs & Hz & _).
  rewrite Hz in Hin. apply elem_of_zip_with in Hin.
  destruct Hin as (o & e & -> & Hin & _). exists o.
  split; [reflexivity|]. unfold children in Hin.
  repeat (apply elem_of_cons in Hin as [-> | Hin];
          [simpl; auto|]).
  apply elem_of_nil in Hin. contradiction.
Qed.

(** * Properties of the example services *)

(** ** Numbering *)

Lemma Sprintf_d_inj : Inj (=) (=) Sprintf_d.
Proof.
  intros n m E. unfold Sprintf_d in E.
  apply (f_equal DecimalString.NilEmpty.uint_of_string) in E.
  rewrite !DecimalString.NilEmpty.usu in E. injection E as E.
  apply DecimalNat.Unsigned.to_uint_inj, E.
Qed.

Lemma wellNumbered_snoc (cs : list candidateapi.Candidate)
    (c : candidateapi.Candidate) :
  wellNumbered cs → candidateapi.ID c = Sprintf_d (length cs + 1) →
  wellNumbered (cs ++ [c]).
Proof.
  unfold wellNumbered. intros Hcs Hc.
  rewrite fmap_app, length_app, Hcs. simpl length.
  rewrite seq_app, fmap_app. simpl. rewrite Hc.
  replace (S (length cs)) with (length cs + 1)%nat by lia. reflexivity.
Qed.

Lemma wellNumbered_ids (cs : list candidateapi.Candidate)
    (c : candidateapi.Candidate) :
  wellNumbered cs → c ∈ cs →
  ∃ i, (1 ≤ i ≤ length cs)%nat ∧ candidateapi.ID c = Sprintf_d i.
Proof.
  intros Hcs Hin.
  assert (Hid : candidateapi.ID c ∈ candidateapi.ID <$> cs)
    by (apply list_elem_of_fmap; eauto).
  rewrite Hcs in Hid. apply list_elem_of_fmap in Hid as (i & Hi & Hseq).
  apply elem_of_seq in Hseq. exists i. split; [lia | exact Hi].
Qed.

Section CandidateService.

Variable Decode : string → string + candidateapi.Candidate.

(** X9. The numbering of the list is an invariant of a call of the
    collection handler: the list the program starts with is numbered 1, 2,
    3, and whatever the request, a call on a list whose ids are 1..n in
    order leaves a list whose ids are 1..n' in order, hence without a
    repeated id. *)
Theorem candidatesHandler_keeps_numbering
    (now : Z) (w : candidateapi.Writer) (r : http.Request)
    (cs : list candidateapi.Candidate) :
  wellNumbered cs →
  let cs' := (candidateapi.candidatesHandler Decode now w r cs).1 in
  wellNumbered cs' ∧ NoDup (candidateapi.ID <$> cs')
  ∧ ∀ start, wellNumbered (candidateapi.candidates start).
Proof.
  intros Hcs cs'.
  assert (Hwn : wellNumbered cs').
  { subst cs'. unfold candidateapi.candidatesHandler.
    destruct (String.eqb _ http.MethodGet); [exact Hcs|].
    destruct (String.eqb _ http.MethodPost); [|exact Hcs].
    destruct (Decode (http.Body r)) as [err | c]; [exact Hcs|].
    apply wellNumbered_snoc; [exact Hcs | reflexivity]. }
  split; [exact Hwn|]. split; [|reflexivity].
  rewrite Hwn.
  apply (@NoDup_fmap_2 _ _ Sprintf_d Sprintf_d_inj), NoDup_seq.
Qed.

(** The list the collection handler leaves: the list it got, or that
    list with the decoded candidate appended. *)
Lemma candidatesHandler_list
    (now : Z) (w : candidateapi.Writer) (r : http.Request)
    (cs : list candidateapi.Candidate) :
  (candidateapi.candidatesHandler Decode now w r cs).1 = cs
  ∨ ∃ c, http.Method r = "POST" ∧ Decode (http.Body r) = inr c
         ∧ (candidateapi.candidatesHandler Decode now w r cs).1
           = cs ++ [candidateapi.mkCandidate
                      (Sprintf_d (length cs + 1))
                      (candidateapi.Name c) (candidateapi.Email c)
                      (candidateapi.Skills c) now].
Proof.
  unfold candidateapi.candidatesHandler.
  destruct (String.eqb _ http.MethodGet); [left; reflexivity|].
  destruct (String.eqb _ http.MethodPost) eqn:Hp; [|left; reflexivity].
  apply String.eqb_eq in Hp.
  destruct (Decode (http.Body r)) as [err | c]; [left; reflexivity|].
  right. exists c. auto.
Qed.

(** X10. The collection handler only ever appends: the list it is given
    is a prefix of the list it leaves, and the list changes only on a POST
    whose body decodes, by exactly one candidate, which is numbered with
    the new length and stamped with the clock. *)
Theorem candidatesHandler_appends_only
    (now : Z) (w : candidateapi.Writer) (r : http.Request)
    (cs : list candidateapi.Candidate) :
  let cs' := (candidateapi.candidatesHandler Decode now w r cs).1 in
  cs `prefix_of` cs'
  ∧ (cs' = cs
     ∨ ∃ c, http.Method r = "POST" ∧ Decode (http.Body r) = inr c
            ∧ cs' = cs ++ [candidateapi.mkCandidate
                             (Sprintf_d (length cs + 1))
                             (candidateapi.Name c) (candidateapi.Email c)
                             (candidateapi.Skills c) now]).
Proof.
  intros cs'. subst cs'.
  destruct (candidatesHandler_list now w r cs) as [E | (c & Hm & Hd & E)];
    rewrite E.
  - split; [reflexivity | left; reflexivity].
  - split; [apply prefix_app_r; reflexivity|]. right. exists c. auto.
Qed.

(** X11. A request the collection handler refuses (a method other than
    GET and POST, or a POST whose body does not decode) is answered 405,
    respectively 400, as plain text: the JSON content type set at the start
    is replaced before the status line is written, and the list is left as
    it was. *)
Theorem candidatesHandler_refusals
    (now : Z) (r : http.Request) (cs : list candidateapi.Candidate) :
  http.Method r ≠ "GET" →
  (http.Method r = "POST" → ∃ err, Decode (http.Body r) = inl err) →
  let res := candidateapi.candidatesHandler Decode now http.newWriter r cs in
  res.1 = cs
  ∧ http.sentStatus res.2 = (if String.eqb (http.Method r) "POST"
                             then 400 else 405)
  ∧ http.sentHeader res.2 !! "Content-Type"
    = Some "text/plain; charset=utf-8"
  ∧ ∃ text, http.body res.2 = [http.Text text].
Proof.
  intros Hget Hpost res. subst res. unfold candidateapi.candidatesHandler.
  apply String.eqb_neq in Hget. unfold http.MethodGet. rewrite Hget.
  unfold http.MethodPost.
  destruct (String.eqb (http.Method r) "POST") eqn:Hp.
  - apply String.eqb_eq in Hp. destruct (Hpost Hp) as (err & ->).
    split; [reflexivity|]. split; [reflexivity|].
    split; [vm_compute; reflexivity | eexists; reflexivity].
  - split; [reflexivity|]. split; [reflexivity|].
    split; [vm_compute; reflexivity | eexists; reflexivity].
Qed.

End CandidateService.

Lemma candidatesHandler_keeps_numbering_witness :
  let cs' := (candidateapi.candidatesHandler sampleDecode 7 http.newWriter
                (http.mkRequest "POST" "/api/v1/candidates" "Dave")
                (candidateapi.candidates 0)).1 in
  wellNumbered cs' ∧ NoDup (candidateapi.ID <$> cs')
  ∧ ∀ start, wellNumbered (candidateapi.candidates start).
Proof.
  apply (candidatesHandler_keeps_numbering sampleDecode 7 http.newWriter
           (http.mkRequest "POST" "/api/v1/candidates" "Dave")
           (candidateapi.candidates 0)).
  reflexivity.
Defined.

Lemma candidatesHandler_refusals_witness :
  let res := candidateapi.candidatesHandler sampleDecode 7 http.newWriter
               (http.mkRequest "POST" "/api/v1/candidates" "")
               (candidateapi.candidates 0) in
  res.1 = candidateapi.candidates 0
  ∧ http.sentStatus res.2 = 400
  ∧ http.sentHeader res.2 !! "Content-Type"
    = Some "text/plain; charset=utf-8"
  ∧ ∃ text, http.body res.2 = [http.Text text].
Proof.
  apply (candidatesHandler_refusals sampleDecode 7
           (http.mkRequest "POST" "/api/v1/candidates" "")
           (candidateapi.candidates 0)).
  - discriminate.
  - intros _. exists "EOF". reflexivity.
Defined.

(** ** Looking a candidate up *)

Lemma rangeCandidates_miss (id : string) (w : candidateapi.Writer)
    (cs l : list candidateapi.Candidate) :
  (∀ c, c ∈ cs → candidateapi.ID c ≠ id) →
  candidateapi.rangeCandidates id w (cs ++ l)
  = candidateapi.rangeCandidates id w l.
Proof.
  induction cs as [|c cs IH]; intros Hne; [reflexivity|].
  simpl. assert (Hc : candidateapi.ID c ≠ id) by (apply Hne; left).
  apply String.eqb_neq in Hc. rewrite Hc.
  apply IH. intros c' Hc'. apply Hne. right. exact Hc'.
Qed.

Lemma rangeCandidates_hit (id : string) (w w' : candidateapi.Writer)
    (cs l : list candidateapi.Candidate) :
  candidateapi.rangeCandidates id w cs = Some w' →
  candidateapi.rangeCandidates id w (cs ++ l) = Some w'.
Proof.
  induction cs as [|c cs IH]; [discriminate|].
  simpl. destruct (String.eqb (candidateapi.ID c) id); auto.
Qed.

Lemma rangeCandidates_spec (id : string) (w : candidateapi.Writer)
    (cs : list candidateapi.Candidate) :
  match candidateapi.rangeCandidates id w cs with
  | Some w' =>
      ∃ pre c post,
        cs = pre ++ c :: post ∧ candidateapi.ID c = id
        ∧ (∀ c', c' ∈ pre → candidateapi.ID c' ≠ id)
        ∧ w' = http.Encode
                 (candidateapi.mkResponse "ok" (candidateapi.DataCandidate c)
                                          "") w
  | None => ∀ c, c ∈ cs → candidateapi.ID c ≠ id
  end.
Proof.
  induction cs as [|c cs IH]; simpl.
  - intros c Hc. apply elem_of_nil in Hc. contradiction.
  - destruct (String.eqb (candidateapi.ID c) id) eqn:E.
    + apply String.eqb_eq in E. exists [], c, cs.
      split; [reflexivity|]. split; [exact E|]. split; [|reflexivity].
      intros c' Hc'. apply elem_of_nil in Hc'. contradiction.
    + apply String.eqb_neq in E.
      destruct (candidateapi.rangeCandidates id w cs) as [w'|].
      * destruct IH as (pre & c0 & post & -> & Hid & Hpre & ->).
        exists (c :: pre), c0, post.
        split; [reflexivity|]. split; [exact Hid|]. split; [|reflexivity].
        intros c' Hc'. apply elem_of_cons in Hc' as [-> | Hc']; auto.
      * intros c' Hc'. apply elem_of_cons in Hc' as [-> | Hc']; auto.
Qed.

Lemma prefix_length_le (p s : string) :
  String.prefix p s = true → (String.length p ≤ String.length s)%nat.
Proof.
  revert p. induction s as [|b s IH]; intros [|a p]; simpl;
    try lia; try discriminate.
  destruct (Ascii.ascii_dec a b); [|discriminate].
  intros H. apply IH in H. lia.
Qed.

(** X12. On a path below its route the lookup handler never panics.  It
    answers 200 with the first candidate of the list whose id is the rest
    of the path, and 404 with an error message exactly when no candidate
    has that id; both answers are sent as JSON.  Called with a path shorter
    than its route it panics. *)
Theorem candidateByIDHandler_finds_first
    (r : http.Request) (cs : list candidateapi.Candidate) :
  String.prefix candidateapi.byIDPrefix (http.Path r) = true →
  let id := dropString (String.length candidateapi.byIDPrefix) (http.Path r) in
  ∃ w, candidateapi.candidateByIDHandler http.newWriter r cs = Returned w
       ∧ http.sentHeader w !! "Content-Type" = Some "application/json"
       ∧ ((http.sentStatus w = 404
           ∧ (∀ c, c ∈ cs → candidateapi.ID c ≠ id)
           ∧ http.body w
             = [http.Encoded (candidateapi.mkResponse
                                "error" candidateapi.NoData
                                "Candidate not found")])
          ∨ (http.sentStatus w = 200
             ∧ ∃ pre c post,
                 cs = pre ++ c :: post ∧ candidateapi.ID c = id
                 ∧ (∀ c', c' ∈ pre → candidateapi.ID c' ≠ id)
                 ∧ http.body w
                   = [http.Encoded (candidateapi.mkResponse
                                      "ok" (candidateapi.DataCandidate c)
                                      "")])).
Proof.
  intros Hp id. apply prefix_length_le in Hp.
  unfold candidateapi.candidateByIDHandler.
  destruct (Nat.ltb_spec (String.length (http.Path r))
              (String.length candidateapi.byIDPrefix)) as [Hlt | _]; [lia|].
  fold id.
  pose proof (rangeCandidates_spec id
                (http.SetHeader "Content-Type" "application/json"
                                http.newWriter) cs) as Hspec.
  destruct (candidateapi.rangeCandidates id _ cs) as [w'|].
  - destruct Hspec as (pre & c & post & Hcs & Hid & Hpre & ->).
    eexists. split; [reflexivity|]. split; [vm_compute; reflexivity|].
    right. split; [reflexivity|]. exists pre, c, post. auto.
  - eexists. split; [reflexivity|]. split; [vm_compute; reflexivity|].
    left. split; [reflexivity|]. split; [exact Hspec | reflexivity].
Qed.

Lemma candidateByIDHandler_finds_first_witness :
  let id := dropString (String.length candidateapi.byIDPrefix)
                       "/api/v1/candidates/2" in
  ∃ w, candidateapi.candidateByIDHandler http.newWriter
         (http.mkRequest "GET" "/api/v1/candidates/2" "")
         (candidateapi.candidates 0) = Returned w
       ∧ http.sentHeader w !! "Content-Type" = Some "application/json"
       ∧ ((http.sentStatus w = 404
           ∧ (∀ c, c ∈ candidateapi.candidates 0 → candidateapi.ID c ≠ id)
           ∧ http.body w
             = [http.Encoded (candidateapi.mkResponse
                                "error" candidateapi.NoData
                                "Candidate not found")])
          ∨ (http.sentStatus w = 200
             ∧ ∃ pre c post,
                 candidateapi.candidates 0 = pre ++ c :: post
                 ∧ candidateapi.ID c = id
                 ∧ (∀ c', c' ∈ pre → candidateapi.ID c' ≠ id)
                 ∧ http.body w
                   = [http.Encoded (candidateapi.mkResponse
                                      "ok" (candidateapi.DataCandidate c)
                                      "")])).
Proof.
  apply (candidateByIDHandler_finds_first
           (http.mkRequest "GET" "/api/v1/candidates/2" "")
           (candidateapi.candidates 0)).
  reflexivity.
Defined.

Lemma dropString_append (p x : string) :
  dropString (String.length p) (p +:+ x) = x.
Proof. induction p as [|a p IH]; [destruct x; reflexivity | exact IH]. Qed.

Lemma length_append_ge (p x : string) :
  (String.length p ≤ String.length (p +:+ x))%nat.
Proof. induction p as [|a p IH]; simpl; lia. Qed.

Section CandidateRoundTrip.

Variable Decode : string → string + candidateapi.Candidate.

(** X14. A candidate that was posted is found under the id it was given.
    On a numbered list, a POST whose body decodes answers 201 with the
    stored candidate (the decoded one, numbered with the new length and
    stamped with the clock), and a lookup of that id on the list the POST
    left answers 200 with the same candidate. *)
Theorem posted_candidate_is_found
    (now : Z) (body : string) (cs : list candidateapi.Candidate)
    (c : candidateapi.Candidate) :
  wellNumbered cs → Decode body = inr c →
  let id := Sprintf_d (length cs + 1) in
  let stored :=
    candidateapi.mkCandidate id (candidateapi.Name c) (candidateapi.Email c)
                             (candidateapi.Skills c) now in
  let posted :=
    candidateapi.candidatesHandler Decode now http.newWriter
      (http.mkRequest "POST" "/api/v1/candidates" body) cs in
  http.sentStatus posted.2 = 201
  ∧ http.body posted.2
    = [http.Encoded (candidateapi.mkResponse
                       "created" (candidateapi.DataCandidate stored) "")]
  ∧ ∃ w, candidateapi.candidateByIDHandler http.newWriter
           (http.mkRequest "GET" (candidateapi.byIDPrefix +:+ id) "")
           posted.1
         = Returned w
         ∧ http.sentStatus w = 200
         ∧ http.body w
           = [http.Encoded (candidateapi.mkResponse
                              "ok" (candidateapi.DataCandidate stored) "")].
Proof.
  intros Hcs Hdec id stored posted.
  assert (Hposted : posted
    = (cs ++ [stored],
       http.Encode
         (candidateapi.mkResponse "created"
            (candidateapi.DataCandidate stored) "")
         (http.WriteHeader http.StatusCreated
            (http.SetHeader "Content-Type" "application/json"
                            http.newWriter)))).
  { subst posted. unfold candidateapi.candidatesHandler. simpl http.Method.
    simpl http.Body. rewrite Hdec. reflexivity. }
  rewrite Hposted. simpl fst. simpl snd.
  split; [reflexivity|]. split; [reflexivity|].
  unfold candidateapi.candidateByIDHandler. simpl http.Path.
  destruct (Nat.ltb_spec
              (String.length (candidateapi.byIDPrefix +:+ id))
              (String.length candidateapi.byIDPrefix)) as [Hlt | _].
  { pose proof (length_append_ge candidateapi.byIDPrefix id). lia. }
  rewrite dropString_append, rangeCandidates_miss.
  - simpl. rewrite String.eqb_refl. eexists. split; [reflexivity|].
    split; reflexivity.
  - intros c' Hc'.
    destruct (wellNumbered_ids cs c' Hcs Hc') as (i & Hi & ->).
    intros Heq. apply Sprintf_d_inj in Heq. lia.
Qed.

(** X15. A candidate that is found stays found: when a lookup answers
    200, the same lookup gives the same answer on the list that a call of
    the collection handler, for any request, leaves. *)
Theorem found_candidate_stays_found
    (r : http.Request) (cs : list candidateapi.Candidate)
    (w : candidateapi.Writer) (now : Z) (w2 : candidateapi.Writer)
    (r2 : http.Request) :
  candidateapi.candidateByIDHandler http.newWriter r cs = Returned w →
  http.sentStatus w = 200 →
  candidateapi.candidateByIDHandler http.newWriter r
    (candidateapi.candidatesHandler Decode now w2 r2 cs).1
  = Returned w.
Proof.
  unfold candidateapi.candidateByIDHandler.
  destruct (String.length (http.Path r) <? _)%nat; [discriminate|].
  destruct (candidateapi.rangeCandidates _ _ cs) as [w'|] eqn:Hr.
  - intros [= <-] _.
    destruct (candidatesHandler_list Decode now w2 r2 cs)
      as [-> | (c & _ & _ & ->)].
    + rewrite Hr. reflexivity.
    + rewrite (rangeCandidates_hit _ _ _ _ _ Hr). reflexivity.
  - intros [= <-] Hs. vm_compute in Hs. discriminate.
Qed.

End CandidateRoundTrip.

Lemma posted_candidate_is_found_witness :
  let id := Sprintf_d (length (candidateapi.candidates 0) + 1) in
  let stored := candidateapi.mkCandidate id "Dave" "" [] 7 in
  let posted :=
    candidateapi.candidatesHandler sampleDecode 7 http.newWriter
      (http.mkRequest "POST" "/api/v1/candidates" "Dave")
      (candidateapi.candidates 0) in
  http.sentStatus posted.2 = 201
  ∧ http.body posted.2
    = [http.Encoded (candidateapi.mkResponse
                       "created" (candidateapi.DataCandidate stored) "")]
  ∧ ∃ w, candidateapi.candidateByIDHandler http.newWriter
           (http.mkRequest "GET" (candidateapi.byIDPrefix +:+ id) "")
           posted.1
         = Returned w
         ∧ http.sentStatus w = 200
         ∧ http.body w
           = [http.Encoded (candidateapi.mkResponse
                              "ok" (candidateapi.DataCandidate stored) "")].
Proof.
  apply (posted_candidate_is_found sampleDecode 7 "Dave"
           (candidateapi.candidates 0)
           (candidateapi.mkCandidate "" "Dave" "" [] 0)).
  - reflexivity.
  - reflexivity.
Defined.

Lemma found_candidate_stays_found_witness :
  candidateapi.candidateByIDHandler http.newWriter
    (http.mkRequest "GET" "/api/v1/candidates/2" "")
    (candidateapi.candidatesHandler sampleDecode 7 http.newWriter
       (http.mkRequest "POST" "/api/v1/candidates" "Dave")
       (candidateapi.candidates 0)).1
  = Returned
      (http.Encode
         (candidateapi.mkResponse "ok"
            (candidateapi.DataCandidate
               (candidateapi.mkCandidate "2" "Bob Smith" "bob@example.com"
                  ["Python"; "ML"; "TensorFlow"] 0)) "")
         (http.SetHeader "Content-Type" "application/json" http.newWriter)).
Proof.
  apply (found_candidate_stays_found sampleDecode
           (http.mkRequest "GET" "/api/v1/candidates/2" "")
           (candidateapi.candidates 0)).
  - vm_compute. reflexivity.
  - vm_compute. reflexivity.
Defined.

(** ** The cross-domain call of hirer-api *)

(** X16. The match handler calls the URL of CANDIDATE_API_URL, or the
    in-cluster default when that is empty, and always answers as JSON.
    When the call fails it answers 503, when the body cannot be read 500,
    each with an error message; otherwise it relays the body it read as it
    is with status 200, whatever status code the upstream answered. *)
Theorem matchCandidatesHandler_outcomes
    (getenv : string) (get : string → hirerapi.GetResult) (r : http.Request) :
  let url := if String.eqb getenv ""
             then hirerapi.defaultCandidateAPIURL else getenv in
  let res := hirerapi.matchCandidatesHandler getenv get http.newWriter r in
  res.1 = url
  ∧ http.sentHeader res.2 !! "Content-Type" = Some "application/json"
  ∧ match get url with
    | hirerapi.GetError _ =>
        http.sentStatus res.2 = 503
        ∧ http.body res.2
          = [http.Encoded (hirerapi.mkResponse
                             "error" "Unable to reach Candidate API")]
    | hirerapi.GetResponse _ (inl _) =>
        http.sentStatus res.2 = 500
        ∧ http.body res.2
          = [http.Encoded (hirerapi.mkResponse
                             "error" "Error reading response")]
    | hirerapi.GetResponse _ (inr body) =>
        http.sentStatus res.2 = 200
        ∧ http.body res.2 = [http.Text body]
    end.
Proof.
  intros url res. subst res. unfold hirerapi.matchCandidatesHandler.
  fold url. destruct (get url) as [err | code [err | body]];
    (split; [reflexivity|]); (split; [vm_compute; reflexivity|]);
    split; reflexivity.
Qed.
